(** * harbor-podman: the container UID pipeline

    A shallow embedding of the three stages of the pipeline
    - [container_uid_map.py]        (Definition Scanner),
    - [container_host_uid_map.py]   (Subuid Resolver and Mapping Store),
    - [apply_container_host_uids.py] (ACL Applicator),
    together with the properties their specification states.

    Modelling conventions.
    - Python [str] is [string]; the [str] methods are embedded with the
      behaviour they have on 7-bit ASCII text.
    - Python [int] is [Z].
    - A [dict] is a [gmap]; a value of type [Optional[int]] is [option Z], so
      that a key bound to [None] ([Some None]) differs from a missing key
      ([None]).  Dictionary equality in Python ignores insertion order, as
      does equality of [gmap]s.
    - Regular files are a finite map from paths to contents.
    - An uncaught exception is an [Err] result carrying the exception.
    - Code outside the repository (the YAML engine, [shlex.split], the
      [setfacl] process, [os.path.isdir]) is a parameter of the functions
      that call it. *)

From Stdlib Require Import ZArith Ascii String DecimalString Decimal.
From Stdlib Require Import DecimalZ DecimalN DecimalPos.
From stdpp Require Import gmap strings list fin_maps sorting.

Local Open Scope Z_scope.

(** ** Exceptions and results *)

Inductive exn : Type :=
| SystemExit (msg : string)
| ValueError (msg : string)
| FileNotFoundError (path : string)
| YAMLError.

Inductive outcome (A : Type) : Type :=
| Ok (a : A)
| Err (e : exn).
Arguments Ok {A} a.
Arguments Err {A} e.

(** ** Python text primitives *)

Module Py.

Definition LF : ascii := "010"%char.
Definition CR : ascii := "013"%char.
Definition DQUOTE : ascii := "034"%char.
Definition BACKSLASH : ascii := "092"%char.

(** [str.isspace] on one ASCII character: TAB, LF, VT, FF, CR, FS, GS, RS,
    US and the space. *)
Definition is_space (c : ascii) : bool :=
  match c with
  | "009" | "010" | "011" | "012" | "013"
  | "028" | "029" | "030" | "031" | " " => true
  | _ => false
  end%char.

Definition is_digit (c : ascii) : bool :=
  match c with
  | "0" | "1" | "2" | "3" | "4" | "5" | "6" | "7" | "8" | "9" => true
  | _ => false
  end%char.

Definition is_empty (s : string) : bool :=
  match s with EmptyString => true | String _ _ => false end.

Fixpoint all_chars (p : ascii -> bool) (s : string) : bool :=
  match s with
  | EmptyString => true
  | String c s' => p c && all_chars p s'
  end.

Fixpoint has_char (c : ascii) (s : string) : bool :=
  match s with
  | EmptyString => false
  | String d s' => Ascii.eqb d c || has_char c s'
  end.

(** [s.isdigit()] *)
Definition isdigit (s : string) : bool :=
  negb (is_empty s) && all_chars is_digit s.

(** [s.lstrip(chars)], [s.rstrip(chars)], [s.strip(chars)], the set of
    characters given as a predicate. *)
Fixpoint lstrip_by (p : ascii -> bool) (s : string) : string :=
  match s with
  | EmptyString => EmptyString
  | String c s' => if p c then lstrip_by p s' else s
  end.

Fixpoint rstrip_by (p : ascii -> bool) (s : string) : string :=
  match s with
  | EmptyString => EmptyString
  | String c s' =>
      let r := rstrip_by p s' in
      if is_empty r && p c then EmptyString else String c r
  end.

Definition strip_by (p : ascii -> bool) (s : string) : string :=
  rstrip_by p (lstrip_by p s).

(** [s.strip()] *)
Definition strip : string -> string := strip_by is_space.

(** [s.startswith(p)] and [s.endswith(p)] *)
Fixpoint startswith (s p : string) {struct p} : bool :=
  match p, s with
  | EmptyString, _ => true
  | String _ _, EmptyString => false
  | String a p', String b s' => Ascii.eqb a b && startswith s' p'
  end.

Fixpoint endswith (s p : string) : bool :=
  String.eqb s p
  || match s with
     | EmptyString => false
     | String _ s' => endswith s' p
     end.

(** [s[n:]] *)
Fixpoint drop (n : nat) (s : string) : string :=
  match n, s with
  | O, _ => s
  | S _, EmptyString => EmptyString
  | S n', String _ s' => drop n' s'
  end.

(** [s[:-1]] *)
Fixpoint drop_last (s : string) : string :=
  match s with
  | EmptyString => EmptyString
  | String c s' => if is_empty s' then EmptyString else String c (drop_last s')
  end.

(** [s.split(sep)] for a one-character separator: every occurrence splits,
    and the result is never empty. *)
Fixpoint split_on (sep : ascii) (s : string) : list string :=
  match s with
  | EmptyString => [EmptyString]
  | String c s' =>
      if Ascii.eqb c sep then EmptyString :: split_on sep s'
      else match split_on sep s' with
           | [] => [String c EmptyString]
           | w :: ws => String c w :: ws
           end
  end.

(** [s.split(sep, 1)] when [sep in s]: the text before and after the first
    occurrence. *)
Fixpoint split_first (sep : ascii) (s : string) : string * string :=
  match s with
  | EmptyString => (EmptyString, EmptyString)
  | String c s' =>
      if Ascii.eqb c sep then (EmptyString, s')
      else let '(a, b) := split_first sep s' in (String c a, b)
  end.

(** [s.split()]: maximal runs of non-space characters. *)
Fixpoint split_ws_go (cur : option string) (s : string) : list string :=
  match s with
  | EmptyString => option_list (String.rev <$> cur)
  | String c s' =>
      if is_space c
      then option_list (String.rev <$> cur) ++ split_ws_go None s'
      else split_ws_go (Some (String c (default EmptyString cur))) s'
  end.
Definition split_ws : string -> list string := split_ws_go None.

(** Iterating over a text file opened with the default [newline=None]:
    ["\r\n"] and a lone ["\r"] read as ["\n"], and every line but possibly
    the last ends in ["\n"]. *)
Fixpoint readlines (s : string) : list string :=
  match s with
  | EmptyString => []
  | String c s' =>
      if Ascii.eqb c LF then String LF EmptyString :: readlines s'
      else if Ascii.eqb c CR then
        match s' with
        | String d s'' =>
            if Ascii.eqb d LF then String LF EmptyString :: readlines s''
            else String LF EmptyString :: readlines s'
        | EmptyString => [String LF EmptyString]
        end
      else match readlines s' with
           | [] => [String c EmptyString]
           | l :: ls => String c l :: ls
           end
  end.

(** [handle.read()] on a text file opened with the default [newline=None]:
    the content with ["\r\n"] and a lone ["\r"] read as ["\n"]. *)
Fixpoint read_text (s : string) : string :=
  match s with
  | EmptyString => EmptyString
  | String c s' =>
      if Ascii.eqb c CR then
        match s' with
        | String d s'' =>
            if Ascii.eqb d LF then String LF (read_text s'')
            else String LF (read_text s')
        | EmptyString => String LF EmptyString
        end
      else String c (read_text s')
  end.

(** [sep.join(parts)] *)
Fixpoint join (sep : string) (parts : list string) : string :=
  match parts with
  | [] => EmptyString
  | [p] => p
  | p :: ps => p +:+ sep +:+ join sep ps
  end.

(** [str(n)] for an [int]. *)
Definition str_of_int (n : Z) : string :=
  NilEmpty.string_of_int (Z.to_int n).

Definition digit_cons (c : ascii) : option (uint -> uint) :=
  match c with
  | "0" => Some D0 | "1" => Some D1 | "2" => Some D2 | "3" => Some D3
  | "4" => Some D4 | "5" => Some D5 | "6" => Some D6 | "7" => Some D7
  | "8" => Some D8 | "9" => Some D9
  | _ => None
  end%char.

(** The digits of an [int] literal: decimal digits in which single
    underscores may separate two digits. *)
Fixpoint digits_us (prev_digit : bool) (s : string) : option uint :=
  match s with
  | EmptyString => if prev_digit then Some Nil else None
  | String c s' =>
      if Ascii.eqb c "_" then
        if prev_digit then
          match s' with
          | EmptyString => None
          | String _ _ => digits_us false s'
          end
        else None
      else
        match digit_cons c with
        | Some d => d <$> digits_us true s'
        | None => None
        end
  end.

(** The white space that [int] skips at either end of its argument, for a
    string of 7-bit characters: TAB, LF, VT, FF, CR and the space.  Unlike
    [str.strip], [int] does not skip FS, GS, RS and US. *)
Definition is_int_space (c : ascii) : bool :=
  match c with
  | "009" | "010" | "011" | "012" | "013" | " " => true
  | _ => false
  end%char.

(** [int(s)]: the white space of [is_int_space] is ignored at either end,
    one sign is allowed, and [None] stands for the [ValueError] of a
    malformed literal. *)
Definition int_of_str (s : string) : option Z :=
  match strip_by is_int_space s with
  | String "+" r => Z.of_uint <$> digits_us false r
  | String "-" r => (fun d => - Z.of_uint d) <$> digits_us false r
  | r => Z.of_uint <$> digits_us false r
  end.

End Py.

(** ** The Mapping Store and the Subuid Resolver ([container_host_uid_map.py]) *)

(** What [yaml.safe_load] can hand back.  The engine is not part of the
    repository; only the shape of its answers matters to the code that
    consumes them.  [YOther] stands for every value that is neither [None],
    a [bool], an [int] nor a [str] (floats, sequences, nested mappings,
    dates), with its [str()] rendering and its truth value. *)
Inductive yaml_value : Type :=
| YNull
| YBool (b : bool)
| YInt (n : Z)
| YStr (s : string)
| YOther (shown : string) (truthy : bool).

Inductive yaml_doc : Type :=
| YDict (items : list (yaml_value * yaml_value))
| YValue (v : yaml_value).

(** The engine: [None] when the [yaml] module cannot be imported, otherwise
    [safe_load], whose [None] answer stands for a raised [yaml.YAMLError]. *)
Definition yaml_engine : Type := option (string -> option yaml_doc).

(** The files of the host: path to content. *)
Abbreviation files := (gmap string string).
(** A UID mapping: container name to an optional UID. *)
Abbreviation uid_map := (gmap string (option Z)).

Definition NL : string := String Py.LF EmptyString.

Module Resolver.

(** [str(v)] *)
Definition py_str (v : yaml_value) : string :=
  match v with
  | YNull => "None"
  | YBool true => "True"
  | YBool false => "False"
  | YInt n => Py.str_of_int n
  | YStr s => s
  | YOther shown _ => shown
  end.

(** Truth value, as tested by [data or {}]. *)
Definition py_truthy (d : yaml_doc) : bool :=
  match d with
  | YDict items => negb (bool_decide (items = []))
  | YValue YNull => false
  | YValue (YBool b) => b
  | YValue (YInt n) => negb (n =? 0)
  | YValue (YStr s) => negb (Py.is_empty s)
  | YValue (YOther _ t) => t
  end.

(** The body of the loop of [load_yaml_simple], lines 45-62. *)
Fixpoint load_yaml_simple_loop (mapping : uid_map) (lines : list string)
  : outcome uid_map :=
  match lines with
  | [] => Ok mapping
  | raw_line :: rest =>
      let line := Py.strip raw_line in
      if Py.is_empty line || Py.startswith line "#" then
        load_yaml_simple_loop mapping rest
      else if String.eqb line "{}" || String.eqb line "[]" then Ok ∅
      else if negb (Py.has_char ":" line) then
        load_yaml_simple_loop mapping rest
      else
        let '(name, value) := Py.split_first ":" line in
        let key := Py.strip name in
        let val := Py.strip_by (Ascii.eqb Py.DQUOTE) (Py.strip value) in
        if Py.is_empty val || String.eqb val "null" || String.eqb val "~" then
          load_yaml_simple_loop (<[key := None]> mapping) rest
        else if Py.isdigit val then
          match Py.int_of_str val with
          | Some n => load_yaml_simple_loop (<[key := Some n]> mapping) rest
          | None =>
              Err (ValueError
                     ("invalid literal for int() with base 10: '" +:+ val +:+ "'"))
          end
        else
          Err (ValueError
                 ("Unsupported value '" +:+ val +:+ "' for container '"
                    +:+ key +:+ "'"))
  end.

Definition load_yaml_simple (fs : files) (map_path : string) : outcome uid_map :=
  match fs !! map_path with
  | None => Err (FileNotFoundError map_path)
  | Some content => load_yaml_simple_loop ∅ (Py.readlines content)
  end.

(** The loop of [load_container_map] over [data.items()], lines 78-87.  A
    [bool] is an instance of [int] and is kept with its numeric value. *)
Fixpoint coerce_items (result : uid_map) (items : list (yaml_value * yaml_value))
  : outcome uid_map :=
  match items with
  | [] => Ok result
  | (key, value) :: rest =>
      match value with
      | YNull => coerce_items (<[py_str key := None]> result) rest
      | YInt n => coerce_items (<[py_str key := Some n]> result) rest
      | YBool b => coerce_items (<[py_str key := Some (Z.b2z b)]> result) rest
      | YStr s =>
          if Py.isdigit s then
            match Py.int_of_str s with
            | Some n => coerce_items (<[py_str key := Some n]> result) rest
            | None =>
                Err (ValueError
                       ("invalid literal for int() with base 10: '" +:+ s +:+ "'"))
            end
          else
            Err (SystemExit
                   ("Unsupported UID value for container '" +:+ py_str key
                      +:+ "': " +:+ s))
      | YOther shown _ =>
          Err (SystemExit
                 ("Unsupported UID value for container '" +:+ py_str key
                    +:+ "': " +:+ shown))
      end
  end.

Definition load_container_map (yaml : yaml_engine) (fs : files) (map_path : string)
  : outcome uid_map :=
  match fs !! map_path with
  | None => Err (SystemExit ("UID map file not found: " +:+ map_path))
  | Some raw =>
      let content := Py.read_text raw in
      if Py.is_empty (Py.strip content) then Ok ∅
      else
        match yaml with
        | Some safe_load =>
            match safe_load content with
            | None => Err YAMLError
            | Some doc =>
                let data := if py_truthy doc then doc else YDict [] in
                match data with
                | YDict items => coerce_items ∅ items
                | YValue _ =>
                    Err (SystemExit "Container UID map must be a YAML mapping")
                end
            end
        | None => load_yaml_simple fs map_path
        end
  end.

(** The loop of [get_current_user_subuid], lines 96-107. *)
Fixpoint subuid_loop (username : string) (lines : list string) : outcome Z :=
  match lines with
  | [] => Err (SystemExit ("No subuid entry found for user " +:+ username))
  | raw_line :: rest =>
      let line := Py.strip raw_line in
      if Py.is_empty line || Py.startswith line "#" then subuid_loop username rest
      else
        let parts := Py.split_on ":" line in
        if (length parts <? 3)%nat then subuid_loop username rest
        else if String.eqb (nth 0 parts "") username then
          match Py.int_of_str (nth 1 parts "") with
          | Some n => Ok n
          | None =>
              Err (SystemExit
                     ("Invalid subuid base for " +:+ username +:+ ": "
                        +:+ nth 1 parts ""))
          end
        else subuid_loop username rest
  end.

(** [username] is [pwd.getpwuid(os.getuid()).pw_name]. *)
Definition get_current_user_subuid (username : string) (fs : files)
    (subuid_file : string) : outcome Z :=
  match fs !! subuid_file with
  | None => Err (SystemExit ("subuid file not found: " +:+ subuid_file))
  | Some content => subuid_loop username (Py.readlines content)
  end.

(** [getuid] is the answer of [os.getuid()]. *)
Definition host_uid (getuid subuid_base : Z) (container_uid : option Z) : option Z :=
  match container_uid with
  | None => None
  | Some u =>
      if negb (getuid =? 0) then Some (subuid_base + u - 1)
      else Some (subuid_base + u)
  end.

Definition compute_host_uids (getuid : Z) (mapping : uid_map) (subuid_base : Z)
  : uid_map :=
  map_fold
    (fun name container_uid (host_map : uid_map) =>
       <[name := host_uid getuid subuid_base container_uid]> host_map)
    ∅ mapping.

(** [sorted(mapping.items())]: the names of a dictionary are distinct, so
    the pairs are ordered by name alone. *)
Definition sorted_items {V : Type} (mapping : gmap string V) : list (string * V) :=
  merge_sort (fun a b => String.le a.1 b.1) (map_to_list mapping).

Definition render_entry (item : string * option Z) : string :=
  item.1 +:+ ": "
    +:+ match item.2 with None => "null" | Some uid => Py.str_of_int uid end.

(** The text that [write_yaml] writes. *)
Definition yaml_text (mapping : uid_map) : string :=
  let lines := render_entry <$> sorted_items mapping in
  let lines := match lines with [] => ["{}"] | _ => lines end in
  Py.join NL lines +:+ NL.

Definition write_yaml (mapping : uid_map) (destination : string) (fs : files)
  : files :=
  <[destination := yaml_text mapping]> fs.

(** Names that survive the line format: no colon, no line break, no
    whitespace at either end, no leading [#]. *)
Definition plain_name (name : string) : bool :=
  negb (Py.has_char ":" name)
  && negb (Py.has_char Py.LF name) && negb (Py.has_char Py.CR name)
  && String.eqb (Py.lstrip_by Py.is_space name) name
  && String.eqb (Py.rstrip_by Py.is_space name) name
  && negb (Py.startswith name "#").

Definition plain_entry (item : string * option Z) : bool :=
  plain_name item.1
  && match item.2 with None => true | Some uid => 0 <=? uid end.

(** A mapping with plain names whose UIDs are absent or non-negative. *)
Definition plain_mapping (mapping : uid_map) : bool :=
  forallb plain_entry (map_to_list mapping).

(** A value as [yaml_text] renders it: not empty, free of whitespace, of
    double quotes and of line breaks. *)
Definition rendered_value (v : string) : Prop :=
  Py.is_empty v = false
  /\ Py.all_chars (fun c => negb (Py.is_space c)) v = true
  /\ Py.all_chars (fun c => negb (Ascii.eqb Py.DQUOTE c)) v = true
  /\ Py.has_char Py.LF v = false /\ Py.has_char Py.CR v = false.

(** The YAML reading of the text of [yaml_text mapping]: a block mapping, in
    the order of the lines, from each name as a string to [null] or to an
    integer. *)
Definition yaml_item (item : string * option Z) : yaml_value * yaml_value :=
  (YStr item.1, match item.2 with None => YNull | Some uid => YInt uid end).

Definition denoted (mapping : uid_map) : yaml_doc :=
  YDict (yaml_item <$> sorted_items mapping).

(** [main] once the arguments are parsed and the paths are absolute: the
    files after the run, and the line printed or the exception. *)
Definition main (yaml : yaml_engine) (getuid : Z) (username : string)
    (fs : files) (map_path subuid_file output_path : string)
  : files * outcome string :=
  match load_container_map yaml fs map_path with
  | Err e => (fs, Err e)
  | Ok container_map =>
      match get_current_user_subuid username fs subuid_file with
      | Err e => (fs, Err e)
      | Ok subuid_base =>
          let host_map := compute_host_uids getuid container_map subuid_base in
          (write_yaml host_map output_path fs,
           Ok ("Wrote " +:+ Py.str_of_int (Z.of_nat (size host_map))
                 +:+ " container host UIDs to " +:+ output_path))
      end
  end.

End Resolver.

(** ** The Definition Scanner ([container_uid_map.py]) *)

Module Scanner.

(** The loop of [read_effective_lines], lines 35-53; the yielded lines in
    the order the generator yields them. *)
Fixpoint read_effective_loop (pending : string) (lines : list string)
  : list string :=
  match lines with
  | [] => if negb (Py.is_empty pending) then [Py.strip pending] else []
  | raw_line :: rest =>
      let stripped_newline := Py.rstrip_by (Ascii.eqb Py.LF) raw_line in
      let stripped := Py.strip stripped_newline in
      if Py.is_empty stripped then
        if negb (Py.is_empty pending)
        then Py.strip pending :: read_effective_loop "" rest
        else read_effective_loop pending rest
      else if Py.startswith stripped "#" then read_effective_loop pending rest
      else if Py.endswith stripped_newline (String Py.BACKSLASH "") then
        read_effective_loop (pending +:+ Py.drop_last stripped_newline +:+ " ") rest
      else
        let pending := pending +:+ stripped_newline in
        if negb (Py.is_empty pending)
        then Py.strip pending :: read_effective_loop "" rest
        else read_effective_loop pending rest
  end.

Definition read_effective_lines (fs : files) (path : string)
  : outcome (list string) :=
  match fs !! path with
  | None => Err (FileNotFoundError path)
  | Some content => Ok (read_effective_loop "" (Py.readlines content))
  end.

(** The candidate of a token that carries its own value, lines 66-75. *)
Definition fused_candidate (token : string) : option string :=
  let short :=
    if Py.startswith token "-u" && negb (String.eqb token "-u") then
      let candidate := Py.drop 2 token in
      let candidate :=
        if Py.startswith candidate "=" then Py.drop 1 candidate else candidate in
      if Py.isdigit candidate then Some candidate else None
    else None in
  match short with
  | Some candidate => Some candidate
  | None =>
      if Py.startswith token "--uid=" then
        let candidate := (Py.split_first "=" token).2 in
        if Py.isdigit candidate then Some candidate else None
      else None
  end.

(** [extract_uid_from_tokens]; [token_list[index + 1]] is the head of the
    tokens that follow. *)
Fixpoint extract_uid_from_tokens (token_list : list string) : option string :=
  match token_list with
  | [] => None
  | token :: rest =>
      if String.eqb token "-u" || String.eqb token "--uid" then
        match rest with
        | value :: _ =>
            if Py.isdigit value then Some value
            else extract_uid_from_tokens rest
        | [] => extract_uid_from_tokens rest
        end
      else
        match fused_candidate token with
        | Some candidate => Some candidate
        | None => extract_uid_from_tokens rest
        end
  end.

(** The UID markers of the specification: [uid_mark token following value]
    holds when [token], followed by the tokens [following], marks [value] as
    a UID: [-u value], [--uid value], [-uvalue], [-u=value] or
    [--uid=value]. *)
Inductive uid_mark : string -> list string -> string -> Prop :=
| mark_short_next value following : uid_mark "-u" (value :: following) value
| mark_long_next value following : uid_mark "--uid" (value :: following) value
| mark_short_fused value following : uid_mark ("-u" +:+ value) following value
| mark_short_equals value following : uid_mark ("-u=" +:+ value) following value
| mark_long_equals value following : uid_mark ("--uid=" +:+ value) following value.

(** [shlex_split line] is [shlex.split(line, comments=True)], [None] when it
    raises [ValueError]. *)
Definition tokenize (shlex_split : string -> option (list string))
    (line : string) : list string :=
  match shlex_split line with
  | Some tokens => tokens
  | None => Py.split_ws line
  end.

Fixpoint find_uid_in_lines (shlex_split : string -> option (list string))
    (lines : list string) : option string :=
  match lines with
  | [] => None
  | line :: rest =>
      match extract_uid_from_tokens (tokenize shlex_split line) with
      | Some uid => Some uid
      | None => find_uid_in_lines shlex_split rest
      end
  end.

Definition find_uid_in_file (shlex_split : string -> option (list string))
    (fs : files) (path : string) : outcome (option string) :=
  match read_effective_lines fs path with
  | Err e => Err e
  | Ok lines => Ok (find_uid_in_lines shlex_split lines)
  end.

(** [mapping.get(target)] *)
Definition dict_get {V : Type} (mapping : gmap string (option V)) (key : string)
  : option V :=
  match mapping !! key with
  | Some v => v
  | None => None
  end.

(** The alias table of [main], in the order the literal lists it. *)
Definition alias_pairs : list (string * string) :=
  [("database", "db"); ("secret/cert", "nginx"); ("secret/core", "core")].

(** One round of the alias loop, lines 141-144. *)
Definition add_alias (mapping : gmap string (option string))
    (pair : string * string) : gmap string (option string) :=
  let '(alias, target) := pair in
  if bool_decide (alias ∈ dom mapping) then mapping
  else <[alias := dict_get mapping target]> mapping.

Definition propagate_aliases (mapping : gmap string (option string))
  : gmap string (option string) :=
  foldl add_alias mapping alias_pairs.

(** [write_yaml] of the Scanner, lines 115-123: the UID is a string and is
    written as it is. *)
Definition render_entry (item : string * option string) : string :=
  item.1 +:+ ": " +:+ match item.2 with None => "null" | Some uid => uid end.

Definition yaml_text (mapping : gmap string (option string)) : string :=
  let lines := render_entry <$> Resolver.sorted_items mapping in
  let lines := match lines with [] => ["{}"] | _ => lines end in
  Py.join NL lines +:+ NL.

Definition write_yaml (mapping : gmap string (option string))
    (destination : string) (fs : files) : files :=
  <[destination := yaml_text mapping]> fs.

End Scanner.

(** ** The ACL Applicator ([apply_container_host_uids.py]) *)

Module Applicator.

(** The host the Applicator runs on: which paths are directories, what the
    [setfacl] process answers to a command line ([None]: the program cannot
    be found; otherwise its exit code and its standard error), and
    [shlex.join]. *)
Record host : Type := {
  isdir : string -> bool;
  subprocess_run : list string -> option (Z * string);
  shlex_join : list string -> string
}.

(** What a run has done so far: the lines printed, the command lines handed
    to [subprocess.run], both latest first, and the tally. *)
Record run_state : Type := {
  printed : list string;
  invoked : list (list string);
  processed : Z
}.

Definition initial : run_state :=
  {| printed := []; invoked := []; processed := 0 |}.

Definition print (line : string) (st : run_state) : run_state :=
  {| printed := line :: printed st; invoked := invoked st;
     processed := processed st |}.

Definition invoke (command : list string) (st : run_state) : run_state :=
  {| printed := printed st; invoked := command :: invoked st;
     processed := processed st |}.

Definition count (st : run_state) : run_state :=
  {| printed := printed st; invoked := invoked st;
     processed := processed st + 1 |}.

(** [os.path.join(root, name)] *)
Definition path_join (root name : string) : string :=
  if Py.startswith name "/" then name
  else if Py.is_empty root || Py.endswith root "/" then root +:+ name
  else root +:+ "/" +:+ name.

Definition setfacl_command (root : string) (uid : Z) : list string :=
  ["setfacl"; "-R"; "-m"; "u:" +:+ Py.str_of_int uid +:+ ":rwx";
   "-m"; "g:" +:+ Py.str_of_int uid +:+ ":rwx"; root].

Definition apply_setfacl (h : host) (root : string) (uid : Z) (dry_run : bool)
    (st : run_state) : run_state * outcome unit :=
  let command := setfacl_command root uid in
  if dry_run then (print ("DRY-RUN " +:+ shlex_join h command) st, Ok tt)
  else
    match subprocess_run h command with
    | None => (invoke command st, Err (SystemExit "setfacl command not found"))
    | Some (returncode, stderr) =>
        if negb (returncode =? 0) then
          (invoke command st,
           Err (SystemExit
                  ("setfacl failed for " +:+ root +:+ ": "
                     +:+ (if negb (Py.is_empty (Py.strip stderr))
                          then Py.strip stderr
                          else "exit code " +:+ Py.str_of_int returncode))))
        else (invoke command st, Ok tt)
    end.

(** The loop of [main], lines 123-132. *)
Fixpoint main_loop (h : host) (root : string) (dry_run : bool)
    (items : list (string * option Z)) (st : run_state)
  : run_state * outcome unit :=
  match items with
  | [] => (st, Ok tt)
  | (name, uid) :: rest =>
      match uid with
      | None =>
          main_loop h root dry_run rest
            (print ("Skipping " +:+ name +:+ ": no host UID defined") st)
      | Some uid =>
          let target := path_join root name in
          if negb (isdir h target) then
            main_loop h root dry_run rest
              (print ("Skipping " +:+ name +:+ ": directory not found at "
                        +:+ target) st)
          else
            match apply_setfacl h target uid dry_run st with
            | (st', Ok _) => main_loop h root dry_run rest (count st')
            | (st', Err e) => (st', Err e)
            end
      end
  end.

(** [main] once the arguments are parsed; [loaded] is what [load_host_map]
    returned. *)
Definition main (h : host) (root : string) (dry_run : bool)
    (loaded : outcome uid_map) : run_state * outcome unit :=
  if negb (isdir h root) then
    (initial, Err (SystemExit ("Directory not found: " +:+ root)))
  else
    match loaded with
    | Err e => (initial, Err e)
    | Ok host_map =>
        match main_loop h root dry_run (Resolver.sorted_items host_map) initial with
        | (st, Ok _) =>
            (print ("Processed " +:+ Py.str_of_int (processed st)
                      +:+ " container directories with setfacl") st, Ok tt)
        | (st, Err e) => (st, Err e)
        end
    end.

(** The grant commands of a run that meets no failure: one for each entry
    that has a UID and whose directory exists, in the order of the entries. *)
Fixpoint planned_grants (h : host) (root : string)
    (items : list (string * option Z)) : list (list string) :=
  match items with
  | [] => []
  | (name, Some uid) :: rest =>
      if isdir h (path_join root name)
      then setfacl_command (path_join root name) uid :: planned_grants h root rest
      else planned_grants h root rest
  | (name, None) :: rest => planned_grants h root rest
  end.

(** The loop of the Applicator's own [load_yaml_simple], lines 45-61. *)
Fixpoint load_yaml_simple_loop (mapping : uid_map) (lines : list string)
  : outcome uid_map :=
  match lines with
  | [] => Ok mapping
  | raw_line :: rest =>
      let line := Py.strip raw_line in
      if Py.is_empty line || Py.startswith line "#" then
        load_yaml_simple_loop mapping rest
      else if String.eqb line "{}" || String.eqb line "[]" then Ok ∅
      else if negb (Py.has_char ":" line) then
        load_yaml_simple_loop mapping rest
      else
        let '(name, value) := Py.split_first ":" line in
        let key := Py.strip name in
        let val := Py.strip_by (Ascii.eqb Py.DQUOTE) (Py.strip value) in
        if Py.is_empty val || String.eqb val "null" || String.eqb val "~" then
          load_yaml_simple_loop (<[key := None]> mapping) rest
        else if Py.isdigit val then
          match Py.int_of_str val with
          | Some n => load_yaml_simple_loop (<[key := Some n]> mapping) rest
          | None =>
              Err (ValueError
                     ("invalid literal for int() with base 10: '" +:+ val +:+ "'"))
          end
        else
          Err (ValueError
                 ("Unsupported UID value '" +:+ val +:+ "' for container '"
                    +:+ key +:+ "'"))
  end.

Definition load_yaml_simple (fs : files) (map_path : string) : outcome uid_map :=
  match fs !! map_path with
  | None => Err (FileNotFoundError map_path)
  | Some content => load_yaml_simple_loop ∅ (Py.readlines content)
  end.

(** [load_host_map], lines 65-87.  Its loop over [data.items()] is, word
    for word, the one of [load_container_map]. *)
Definition load_host_map (yaml : yaml_engine) (fs : files) (map_path : string)
  : outcome uid_map :=
  match fs !! map_path with
  | None => Err (SystemExit ("Host UID map file not found: " +:+ map_path))
  | Some raw =>
      let content := Py.read_text raw in
      if Py.is_empty (Py.strip content) then Ok ∅
      else
        match yaml with
        | Some safe_load =>
            match safe_load content with
            | None => Err YAMLError
            | Some doc =>
                let data := if Resolver.py_truthy doc then doc else YDict [] in
                match data with
                | YDict items => Resolver.coerce_items ∅ items
                | YValue _ => Err (SystemExit "Host UID map must be a YAML mapping")
                end
            end
        | None => load_yaml_simple fs map_path
        end
  end.

End Applicator.

(** ** The Definition Scanner: the walk over the container folders *)

Module ScannerMain.

(** An entry of [os.scandir(root)]: its [name] and what [is_dir()] says. *)
Record dir_entry : Type := { entry_name : string; entry_is_dir : bool }.

(** [os.path.isfile(path)] *)
Definition isfile (fs : files) (path : string) : bool :=
  bool_decide (is_Some (fs !! path)).

(** [sorted(dockerfiles, key=lambda path: 0 if path.endswith("Dockerfile")
    else 1)]: the sort is stable and the key has two values, so the paths
    with key 0 come first and each group keeps its order. *)
Definition sort_dockerfiles (dockerfiles : list string) : list string :=
  List.filter (fun path => Py.endswith path "Dockerfile") dockerfiles
    ++ List.filter (fun path => negb (Py.endswith path "Dockerfile")) dockerfiles.

(** The loop of lines 105-110: the UID of the first file that has one. *)
Fixpoint first_uid (shlex_split : string -> option (list string)) (fs : files)
    (dockerfiles : list string) : outcome (option string) :=
  match dockerfiles with
  | [] => Ok None
  | dockerfile :: rest =>
      match Scanner.find_uid_in_file shlex_split fs dockerfile with
      | Err e => Err e
      | Ok (Some uid) => Ok (Some uid)
      | Ok None => first_uid shlex_split fs rest
      end
  end.

(** The existing build definitions of a folder, lines 96-100. *)
Definition dockerfiles_of (fs : files) (entry_path : string) : list string :=
  List.filter (isfile fs)
    ((fun candidate => Applicator.path_join entry_path candidate)
       <$> ["Dockerfile"; "Dockerfile.base"]).

(** The body of the loop of [find_container_uids] for one entry, lines
    94-110: [None] when the entry is passed over, otherwise what the scan of
    its build definitions gives. *)
Definition scan_entry (shlex_split : string -> option (list string))
    (fs : files) (root : string) (entry : dir_entry)
  : option (outcome (option string)) :=
  if negb (entry_is_dir entry) then None
  else
    let dockerfiles :=
      dockerfiles_of fs (Applicator.path_join root (entry_name entry)) in
    match dockerfiles with
    | [] => None
    | _ => Some (first_uid shlex_split fs (sort_dockerfiles dockerfiles))
    end.

(** The loop of [find_container_uids], lines 93-111. *)
Fixpoint find_container_uids_loop (shlex_split : string -> option (list string))
    (fs : files) (root : string) (entries : list dir_entry)
    (containers : gmap string (option string))
  : outcome (gmap string (option string)) :=
  match entries with
  | [] => Ok containers
  | entry :: rest =>
      match scan_entry shlex_split fs root entry with
      | None => find_container_uids_loop shlex_split fs root rest containers
      | Some (Err e) => Err e
      | Some (Ok uid) =>
          find_container_uids_loop shlex_split fs root rest
            (<[entry_name entry := uid]> containers)
      end
  end.

(** [scandir] is what [os.scandir(root)] lists. *)
Definition find_container_uids (shlex_split : string -> option (list string))
    (fs : files) (root : string) (scandir : list dir_entry)
  : outcome (gmap string (option string)) :=
  find_container_uids_loop shlex_split fs root
    (merge_sort (fun a b => String.le (entry_name a) (entry_name b)) scandir) ∅.

(** [main] once the arguments are parsed; [scandir] is [None] when [root]
    is not a directory. *)
Definition main (shlex_split : string -> option (list string)) (fs : files)
    (root : string) (scandir : option (list dir_entry)) (output_path : string)
  : files * outcome string :=
  match scandir with
  | None => (fs, Err (SystemExit ("Directory not found: " +:+ root)))
  | Some listing =>
      match find_container_uids shlex_split fs root listing with
      | Err e => (fs, Err e)
      | Ok scanned =>
          let mapping := Scanner.propagate_aliases scanned in
          (Scanner.write_yaml mapping output_path fs,
           Ok ("Wrote " +:+ Py.str_of_int (Z.of_nat (size mapping))
                 +:+ " containers to " +:+ output_path))
      end
  end.

(** A scan result that the line format carries: plain names, and UIDs that
    are absent or non-empty strings of digits. *)
Definition plain_scan_entry (item : string * option string) : bool :=
  Resolver.plain_name item.1
  && match item.2 with None => true | Some uid => Py.isdigit uid end.

Definition plain_scan (mapping : gmap string (option string)) : bool :=
  forallb plain_scan_entry (map_to_list mapping).

(** The number a reported UID stands for. *)
Definition uid_number (uid : option string) : option Z :=
  match uid with
  | None => None
  | Some digits => Py.int_of_str digits
  end.

End ScannerMain.

(** ** Sample inputs *)

Module Samples.

(** A host with the directories [/r], [/r/app] and [/r/b], on which
    [setfacl] fails for [/r/b] and succeeds elsewhere. *)
Definition h : Applicator.host :=
  {| Applicator.isdir := fun p => bool_decide (p ∈ ["/r"; "/r/app"; "/r/b"]);
     Applicator.subprocess_run :=
       fun command =>
         if bool_decide (last command = Some "/r/b") then Some (1, " boom ")
         else Some (0, "");
     Applicator.shlex_join := Py.join " " |}.

Definition host_map : uid_map :=
  <["app" := Some 166535]> (<["b" := Some 1]> (<["c" := Some 4]> (<["n" := None]> ∅))).

(** A tree under [/r]: [app] with a build definition that sets a UID, [db]
    whose main definition sets none and whose base variant does, [core]
    with a base variant only, [empty] without a definition, and a file. *)
Definition scan_fs : files :=
  <["/r/app/Dockerfile" := "USER app" +:+ NL +:+ "RUN adduser -u 2000 app" +:+ NL]>
    (<["/r/db/Dockerfile" := "FROM base" +:+ NL]>
       (<["/r/db/Dockerfile.base" := "RUN useradd --uid=70 pg" +:+ NL]>
          (<["/r/core/Dockerfile.base" := "RUN useradd -u0010 core" +:+ NL]> ∅))).

Definition scan_listing : list ScannerMain.dir_entry :=
  [ {| ScannerMain.entry_name := "db"; ScannerMain.entry_is_dir := true |};
    {| ScannerMain.entry_name := "app"; ScannerMain.entry_is_dir := true |};
    {| ScannerMain.entry_name := "empty"; ScannerMain.entry_is_dir := true |};
    {| ScannerMain.entry_name := "core"; ScannerMain.entry_is_dir := true |};
    {| ScannerMain.entry_name := "README"; ScannerMain.entry_is_dir := false |} ].

End Samples.

(** * Properties *)

(** ** Subuid Resolver: the offset rule *)

Section offset.
Import Resolver.

Lemma compute_host_uids_fmap (getuid subuid_base : Z) (mapping : uid_map) :
  compute_host_uids getuid mapping subuid_base
  = host_uid getuid subuid_base <$> mapping.
Proof.
  unfold compute_host_uids.
  apply (map_fold_weak_ind
           (fun r (m : uid_map) => r = host_uid getuid subuid_base <$> m)).
  - by rewrite fmap_empty.
  - intros name cu m r _ ->. by rewrite fmap_insert.
Qed.

(** C1.  Every name of the input mapping is a name of the output; an absent
    container UID stays absent, and a container UID [u] becomes [b + u] for
    the privileged caller ([os.getuid() = 0]) and [b + u - 1] for any other
    caller.  With base 100000 and container UID 1000 this is 100999 for an
    unprivileged caller and 101000 for the privileged one. *)
Theorem compute_host_uids_offset (getuid b : Z) (mapping : uid_map) (name : string) :
  compute_host_uids getuid mapping b !! name
  = (fun container_uid : option Z =>
       match container_uid with
       | None => None
       | Some u => Some (if getuid =? 0 then b + u else b + u - 1)
       end) <$> mapping !! name
  /\ compute_host_uids 1000 {[ "app" := Some 1000 ]} 100000 !! "app"
     = Some (Some 100999)
  /\ compute_host_uids 0 {[ "app" := Some 1000 ]} 100000 !! "app"
     = Some (Some 101000).
Proof.
  split; [|split].
  - rewrite compute_host_uids_fmap, lookup_fmap.
    destruct (mapping !! name) as [[u|]|]; simpl; [|done..].
    unfold host_uid. by destruct (getuid =? 0).
  - by rewrite compute_host_uids_fmap, lookup_fmap, lookup_singleton_eq.
  - by rewrite compute_host_uids_fmap, lookup_fmap, lookup_singleton_eq.
Qed.

End offset.

(** ** Definition Scanner: alias propagation *)

Section aliases.
Import Scanner.
Implicit Types (mapping scan : gmap string (option string)).
Implicit Types (pairs : list (string * string)).

Lemma add_alias_other mapping alias target name :
  name ≠ alias -> add_alias mapping (alias, target) !! name = mapping !! name.
Proof.
  intros Hne. unfold add_alias. case_bool_decide; [done|].
  by rewrite lookup_insert_ne.
Qed.

Lemma add_alias_kept mapping pair name :
  is_Some (mapping !! name) -> add_alias mapping pair !! name = mapping !! name.
Proof.
  destruct pair as [alias target]. intros Hin.
  destruct (decide (name = alias)) as [->|Hne]; [|by apply add_alias_other].
  unfold add_alias. rewrite bool_decide_eq_true_2; [done|].
  by apply elem_of_dom.
Qed.

Lemma add_alias_fresh mapping alias target :
  mapping !! alias = None ->
  add_alias mapping (alias, target) !! alias = Some (dict_get mapping target).
Proof.
  intros Hnone. unfold add_alias. rewrite bool_decide_eq_false_2.
  - by rewrite lookup_insert_eq.
  - by rewrite not_elem_of_dom.
Qed.

Lemma foldl_add_alias_kept pairs mapping name :
  is_Some (mapping !! name) ->
  foldl add_alias mapping pairs !! name = mapping !! name.
Proof.
  revert mapping. induction pairs as [|pair pairs IH]; intros mapping Hin; [done|].
  simpl. rewrite IH; rewrite add_alias_kept; done.
Qed.

Lemma foldl_add_alias_other pairs mapping name :
  name ∉ pairs.*1 ->
  foldl add_alias mapping pairs !! name = mapping !! name.
Proof.
  revert mapping. induction pairs as [|[alias target] pairs IH];
    intros mapping Hnot; [done|].
  simpl in *. apply not_elem_of_cons in Hnot as [Hne Hnot].
  rewrite IH by done. by apply add_alias_other.
Qed.

Lemma foldl_add_alias_fresh pre post alias target mapping :
  mapping !! alias = None -> alias ∉ pre.*1 ->
  foldl add_alias mapping (pre ++ (alias, target) :: post) !! alias
  = Some (dict_get (foldl add_alias mapping pre) target).
Proof.
  intros Hnone Hpre. rewrite foldl_app. cbn [foldl].
  assert (foldl add_alias mapping pre !! alias = None) as Hstill
    by (by rewrite foldl_add_alias_other).
  rewrite foldl_add_alias_kept; rewrite add_alias_fresh; done.
Qed.

Lemma dict_get_foldl_add_alias_other pairs mapping name :
  name ∉ pairs.*1 ->
  dict_get (foldl add_alias mapping pairs) name = dict_get mapping name.
Proof. intros Hnot. unfold dict_get. by rewrite foldl_add_alias_other. Qed.

(** C4.  For every pair (alias, source) of the alias table: a name the scan
    populated keeps its value.  A name the scan did not populate is bound to
    the value the source holds when the pair is resolved, and that is the
    value the scan gave the source: when the scan has the source with the
    value [value] (a UID or [None]), alias and source both have [value] in
    the result; when the scan does not have the source, the alias is bound
    to [None] and the source stays absent. *)
Theorem alias_propagation scan alias source :
  (alias, source) ∈ alias_pairs ->
  (alias ∈ dom scan -> propagate_aliases scan !! alias = scan !! alias)
  /\ (alias ∉ dom scan ->
      (forall pre post, alias_pairs = pre ++ (alias, source) :: post ->
         propagate_aliases scan !! alias
         = Some match foldl add_alias scan pre !! source with
                | Some value => value
                | None => None
                end)
      /\ (forall value,
            scan !! source = Some value ->
            propagate_aliases scan !! alias = Some value
            /\ propagate_aliases scan !! source = Some value)
      /\ (scan !! source = None ->
          propagate_aliases scan !! alias = Some None
          /\ propagate_aliases scan !! source = None)).
Proof.
  intros Hpair. unfold propagate_aliases. split.
  - intros Hin. apply foldl_add_alias_kept. by apply elem_of_dom.
  - intros Hnot. apply not_elem_of_dom in Hnot.
    assert (NoDup alias_pairs.*1) as Hnodup
      by (apply (bool_decide_unpack _); by vm_compute).
    assert (source ∉ alias_pairs.*1) as Hsrc.
    { unfold alias_pairs in *. simpl.
      rewrite !elem_of_cons, elem_of_nil in Hpair.
      rewrite !not_elem_of_cons.
      destruct Hpair as [[= -> ->]|[[= -> ->]|[[= -> ->]|[]]]];
        repeat split; try done; apply not_elem_of_nil. }
    assert (forall pre post, alias_pairs = pre ++ (alias, source) :: post ->
              foldl add_alias scan alias_pairs !! alias
              = Some (dict_get (foldl add_alias scan pre) source)) as Hat.
    { intros pre post Heq. rewrite Heq in Hnodup |- *.
      rewrite fmap_app in Hnodup. apply NoDup_app in Hnodup as (_ & Hdisj & _).
      apply foldl_add_alias_fresh; [done|].
      intros Hin. apply (Hdisj _ Hin). simpl. left. }
    apply list_elem_of_split in Hpair as (pre & post & Heq).
    assert (source ∉ pre.*1) as Hsrc_pre.
    { intros Hin. apply Hsrc. rewrite Heq, fmap_app. apply elem_of_app. by left. }
    assert (foldl add_alias scan alias_pairs !! alias
            = Some match scan !! source with
                   | Some value => value
                   | None => None
                   end) as Halias.
    { rewrite (Hat _ _ Heq). unfold dict_get.
      by rewrite foldl_add_alias_other. }
    assert (foldl add_alias scan alias_pairs !! source = scan !! source)
      as Hsource by (by apply foldl_add_alias_other).
    split; [exact Hat|]. split.
    + intros value Hvalue. by rewrite Halias, Hsource, Hvalue.
    + intros Hvalue. by rewrite Halias, Hsource, Hvalue.
Qed.

(** The pair (database, db) on a scan that found [db] with the UID 70 and
    [nginx] without one: [database] is bound to 70. *)
Lemma alias_propagation_witness :
  propagate_aliases (<["db" := Some "70"]> (<["nginx" := None]> ∅)) !! "database"
  = Some (Some "70")
  /\ propagate_aliases (<["db" := Some "70"]> (<["nginx" := None]> ∅)) !! "db"
     = Some (Some "70").
Proof.
  assert (("database", "db") ∈ alias_pairs) as Hin
    by (apply (bool_decide_unpack _); by vm_compute).
  destruct (alias_propagation (<["db" := Some "70"]> (<["nginx" := None]> ∅))
              "database" "db" Hin) as [_ Hfresh].
  destruct Hfresh as (_ & Hvalue & _).
  - apply (bool_decide_unpack _). by vm_compute.
  - apply Hvalue. by vm_compute.
Defined.

End aliases.

(** ** ACL Applicator *)

Section applicator.
Import Applicator.

Lemma main_loop_app h root dry_run pre post st :
  main_loop h root dry_run (pre ++ post) st
  = match main_loop h root dry_run pre st with
    | (st1, Ok _) => main_loop h root dry_run post st1
    | (st1, Err e) => (st1, Err e)
    end.
Proof.
  revert st. induction pre as [|[name [uid|]] pre IH]; intros st; simpl.
  - done.
  - destruct (isdir h (path_join root name)); simpl; [|apply IH].
    destruct (apply_setfacl h (path_join root name) uid dry_run st)
      as [st' [[]|e]]; [apply IH|done].
  - apply IH.
Qed.

Lemma apply_setfacl_dry_run h root uid st :
  apply_setfacl h root uid true st
  = (print ("DRY-RUN " +:+ shlex_join h (setfacl_command root uid)) st, Ok tt).
Proof. done. Qed.

Lemma apply_setfacl_success h root uid st stderr :
  subprocess_run h (setfacl_command root uid) = Some (0, stderr) ->
  apply_setfacl h root uid false st = (invoke (setfacl_command root uid) st, Ok tt).
Proof. intros Hrun. unfold apply_setfacl. by rewrite Hrun. Qed.

Lemma apply_setfacl_failure h root uid st :
  (subprocess_run h (setfacl_command root uid) = None
   \/ exists returncode stderr,
        subprocess_run h (setfacl_command root uid) = Some (returncode, stderr)
        /\ returncode ≠ 0) ->
  exists msg,
    apply_setfacl h root uid false st
    = (invoke (setfacl_command root uid) st, Err (SystemExit msg)).
Proof.
  intros [Hrun|(returncode & stderr & Hrun & Hne)];
    unfold apply_setfacl; rewrite Hrun; [by eexists|].
  apply Z.eqb_neq in Hne. rewrite Hne. simpl. by eexists.
Qed.

(** C8, as the code has it.  An entry without a UID, or whose directory does
    not exist, prints one [Skipping] line, runs no command, leaves the tally
    alone, and the loop goes on with the next entry.  An entry with a UID
    and an existing directory adds one to the tally, in a dry run (which
    prints the command and runs nothing) and in a real run whose [setfacl]
    exits with 0. *)
Theorem entry_skipped_or_counted h root dry_run name uid rest st :
  (forall u, uid = Some u -> isdir h (path_join root name) = true ->
     dry_run = false ->
     exists stderr,
       subprocess_run h (setfacl_command (path_join root name) u)
       = Some (0, stderr)) ->
  exists st',
    main_loop h root dry_run ((name, uid) :: rest) st
    = main_loop h root dry_run rest st'
    /\ match uid with
       | None =>
           invoked st' = invoked st /\ processed st' = processed st
           /\ printed st'
              = ("Skipping " +:+ name +:+ ": no host UID defined") :: printed st
       | Some u =>
           if isdir h (path_join root name) then
             processed st' = processed st + 1
             /\ if dry_run then
                  invoked st' = invoked st
                  /\ printed st'
                     = ("DRY-RUN "
                          +:+ shlex_join h (setfacl_command (path_join root name) u))
                         :: printed st
                else
                  invoked st'
                  = setfacl_command (path_join root name) u :: invoked st
                  /\ printed st' = printed st
           else
             invoked st' = invoked st /\ processed st' = processed st
             /\ printed st'
                = ("Skipping " +:+ name +:+ ": directory not found at "
                     +:+ path_join root name) :: printed st
       end.
Proof.
  intros Hgrant. destruct uid as [u|]; simpl.
  - destruct (isdir h (path_join root name)) eqn:Hdir; simpl.
    + destruct dry_run.
      * rewrite apply_setfacl_dry_run. by eexists.
      * destruct (Hgrant u eq_refl eq_refl eq_refl) as [stderr Hrun].
        rewrite (apply_setfacl_success _ _ _ _ _ Hrun). by eexists.
    + by eexists.
  - by eexists.
Qed.

(** A dry run over the entry of [/r/app]. *)
Lemma entry_skipped_or_counted_witness :
  exists st',
    main_loop Samples.h "/r" true [("app", Some 166535); ("n", None)] initial
    = main_loop Samples.h "/r" true [("n", None)] st'
    /\ processed st' = processed initial + 1
    /\ invoked st' = invoked initial.
Proof.
  destruct (entry_skipped_or_counted Samples.h "/r" true "app" (Some 166535)
              [("n", None)] initial) as (st' & Hstep & Hcount & Hinv & _).
  - intros u _ _ Hdry. discriminate Hdry.
  - exists st'. split; [exact Hstep|]. split; [exact Hcount|exact Hinv].
Defined.

(** C8 as stated fails: an entry with a UID and an existing directory whose
    [setfacl] exits with 1 stops the run before the tally is touched. *)
Lemma failed_grant_not_counted :
  isdir Samples.h (path_join "/r" "b") = true
  /\ main_loop Samples.h "/r" false [("b", Some 1); ("c", Some 4)] initial
     = ({| printed := []; invoked := [setfacl_command "/r/b" 1]; processed := 0 |},
        Err (SystemExit "setfacl failed for /r/b: boom"))
  /\ ~ (exists st',
          main_loop Samples.h "/r" false [("b", Some 1); ("c", Some 4)] initial
          = main_loop Samples.h "/r" false [("c", Some 4)] st'
          /\ processed st' = processed initial + 1).
Proof.
  split; [done|]. split; [done|].
  intros (st' & Hstep & _). vm_compute in Hstep. discriminate Hstep.
Qed.

(** C9.  In a run that is not a dry run, at the first entry whose [setfacl]
    cannot be started or exits with a non-zero code the run ends with
    [SystemExit]: the failed command is the last one invoked, no later entry
    is looked at, and the closing summary is not printed. *)
Theorem grant_failure_aborts h root host_map pre name uid post st1 :
  isdir h root = true ->
  Resolver.sorted_items host_map = pre ++ (name, Some uid) :: post ->
  main_loop h root false pre initial = (st1, Ok tt) ->
  isdir h (path_join root name) = true ->
  (subprocess_run h (setfacl_command (path_join root name) uid) = None
   \/ exists returncode stderr,
        subprocess_run h (setfacl_command (path_join root name) uid)
        = Some (returncode, stderr)
        /\ returncode ≠ 0) ->
  exists msg,
    main h root false (Ok host_map)
    = (invoke (setfacl_command (path_join root name) uid) st1,
       Err (SystemExit msg)).
Proof.
  intros Hroot Hitems Hpre Hdir Hfail.
  destruct (apply_setfacl_failure h (path_join root name) uid st1 Hfail)
    as [msg Hmsg].
  exists msg. unfold main. rewrite Hroot, Hitems. cbn [negb].
  rewrite main_loop_app, Hpre. cbn [main_loop].
  rewrite Hdir. cbn [negb]. by rewrite Hmsg.
Qed.

(** The sample map on the sample host: [/r/app] is granted, [/r/b] fails. *)
Lemma grant_failure_aborts_witness :
  exists msg,
    main Samples.h "/r" false (Ok Samples.host_map)
    = (invoke (setfacl_command (path_join "/r" "b") 1)
         (count (invoke (setfacl_command "/r/app" 166535) initial)),
       Err (SystemExit msg)).
Proof.
  apply (grant_failure_aborts Samples.h "/r" Samples.host_map
           [("app", Some 166535)] "b" 1 [("c", Some 4); ("n", None)]).
  - reflexivity.
  - vm_compute. reflexivity.
  - vm_compute. reflexivity.
  - reflexivity.
  - right. exists 1, " boom ". split; [vm_compute; reflexivity|lia].
Defined.

End applicator.

(** ** Subuid Resolver: the registry scan *)

Section registry.
Import Resolver.

(** A registry line that the scan passes over: blank, a comment, fewer than
    three fields, or a first field that is not the user. *)
Lemma subuid_loop_passes username raw_line rest :
  Py.is_empty (Py.strip raw_line) || Py.startswith (Py.strip raw_line) "#"
  || (length (Py.split_on ":" (Py.strip raw_line)) <? 3)%nat
  || negb (String.eqb (nth 0 (Py.split_on ":" (Py.strip raw_line)) "") username)
  = true ->
  subuid_loop username (raw_line :: rest) = subuid_loop username rest.
Proof.
  intros Hpass. cbn [subuid_loop].
  destruct (Py.is_empty (Py.strip raw_line) || Py.startswith (Py.strip raw_line) "#");
    [done|].
  destruct (length (Py.split_on ":" (Py.strip raw_line)) <? 3)%nat; [done|].
  simpl in Hpass. apply negb_true_iff in Hpass. by rewrite Hpass.
Qed.

End registry.

(** ** Facts about the text primitives *)

Section text.
Import Py.

Lemma app_cons (c : ascii) (s t : string) : String c s +:+ t = String c (s +:+ t).
Proof. reflexivity. Qed.

Lemma app_nil_l (s : string) : "" +:+ s = s.
Proof. reflexivity. Qed.


Lemma app_assoc (s t u : string) : (s +:+ t) +:+ u = s +:+ t +:+ u.
Proof. induction s as [|c s IH]; [done|]. by rewrite !app_cons, IH. Qed.

Lemma is_empty_true (s : string) : is_empty s = true <-> s = "".
Proof. by destruct s. Qed.

Lemma is_empty_app (s t : string) :
  is_empty (s +:+ t) = is_empty s && is_empty t.
Proof. by destruct s. Qed.

Lemma lstrip_by_empty p (s : string) : is_empty s = true -> lstrip_by p s = "".
Proof. by intros ->%is_empty_true. Qed.

Lemma strip_by_nonempty p (s : string) :
  is_empty (strip_by p s) = false -> is_empty s = false.
Proof. destruct s; [done|done]. Qed.


End text.

(** ** Definition Scanner: logical lines *)

Section logical_lines.
Import Py Scanner.









End logical_lines.

(** ** Definition Scanner: UID extraction *)

Section extraction.
Import Py Scanner.

Lemma startswith_app (p s : string) : startswith (p +:+ s) p = true.
Proof.
  induction p as [|c p IH]; [by destruct s|].
  rewrite app_cons. cbn [startswith]. by rewrite Ascii.eqb_refl, IH.
Qed.

Lemma startswith_split (s p : string) :
  startswith s p = true -> s = p +:+ drop (String.length p) s.
Proof.
  revert s. induction p as [|c p IH]; intros s; [done|].
  destruct s as [|d s]; [done|]. cbn [startswith String.length drop].
  intros [Hc Hp]%andb_true_iff. apply Ascii.eqb_eq in Hc as ->.
  rewrite app_cons. f_equal. by apply IH.
Qed.

Lemma drop_app (p s : string) : drop (String.length p) (p +:+ s) = s.
Proof. induction p as [|c p IH]; [done|]. by rewrite app_cons. Qed.

Lemma isdigit_cons (v : string) :
  isdigit v = true -> exists c v', v = String c v' /\ is_digit c = true.
Proof.
  destruct v as [|c v']; [done|]. unfold isdigit. cbn.
  intros [Hc _]%andb_true_iff. eauto.
Qed.

Lemma isdigit_not_equals (v : string) :
  isdigit v = true -> startswith v "=" = false.
Proof.
  intros (c & v' & -> & Hc)%isdigit_cons. cbn [startswith].
  destruct (Ascii.eqb_spec "=" c) as [<-|]; [done|done].
Qed.

(** What one token of the scan returns, implicit in the loop body. *)
Lemma extract_uid_from_tokens_cons token rest :
  extract_uid_from_tokens (token :: rest)
  = if String.eqb token "-u" || String.eqb token "--uid" then
      match rest with
      | value :: _ =>
          if isdigit value then Some value else extract_uid_from_tokens rest
      | [] => extract_uid_from_tokens rest
      end
    else match fused_candidate token with
         | Some candidate => Some candidate
         | None => extract_uid_from_tokens rest
         end.
Proof. done. Qed.

Lemma fused_candidate_mark token value following :
  fused_candidate token = Some value ->
  uid_mark token following value /\ isdigit value = true.
Proof.
  unfold fused_candidate.
  destruct (startswith token "-u" && negb (String.eqb token "-u")) eqn:Hshort.
  - apply andb_true_iff in Hshort as [Hpre _].
    apply startswith_split in Hpre. cbn [String.length] in Hpre.
    destruct (startswith (drop 2 token) "=") eqn:Heq.
    + apply startswith_split in Heq. cbn [String.length] in Heq.
      destruct (isdigit (drop 1 (drop 2 token))) eqn:Hdig.
      * intros [= <-]. split; [|done].
        rewrite Hpre at 1. rewrite Heq at 1. apply mark_short_equals.
      * destruct (startswith token "--uid=") eqn:Hlong; [|done].
        apply startswith_split in Hlong. rewrite Hlong in Hpre. done.
    + destruct (isdigit (drop 2 token)) eqn:Hdig.
      * intros [= <-]. split; [|done]. rewrite Hpre at 1. apply mark_short_fused.
      * destruct (startswith token "--uid=") eqn:Hlong; [|done].
        apply startswith_split in Hlong. rewrite Hlong in Hpre. done.
  - destruct (startswith token "--uid=") eqn:Hlong; [|done].
    apply startswith_split in Hlong. cbn [String.length] in Hlong.
    destruct (isdigit (split_first "=" token).2) eqn:Hdig; [|done].
    intros [= <-]. split; [|done].
    rewrite Hlong at 1. rewrite Hlong at 2. apply mark_long_equals.
Qed.

Lemma mark_fused_candidate token value following :
  String.eqb token "-u" || String.eqb token "--uid" = false ->
  uid_mark token following value -> isdigit value = true ->
  fused_candidate token = Some value.
Proof.
  intros Hplain Hmark Hdig.
  destruct (isdigit_cons _ Hdig) as (c & v' & Hv & Hc).
  inversion Hmark; subst token; try done; subst value.
  - unfold fused_candidate. rewrite startswith_app.
    replace (String.eqb ("-u" +:+ String c v') "-u") with false by done.
    cbn [andb negb]. replace (drop 2 ("-u" +:+ String c v')) with (String c v') by done.
    by rewrite (isdigit_not_equals _ Hdig), Hdig.
  - unfold fused_candidate.
    replace (startswith ("-u=" +:+ String c v') "-u") with true by done.
    replace (String.eqb ("-u=" +:+ String c v') "-u") with false by done.
    cbn [andb negb].
    replace (drop 2 ("-u=" +:+ String c v')) with ("=" +:+ String c v') by done.
    rewrite startswith_app.
    replace (drop 1 ("=" +:+ String c v')) with (String c v') by done.
    by rewrite Hdig.
  - unfold fused_candidate.
    replace (startswith ("--uid=" +:+ String c v') "-u") with false by done.
    cbn [andb]. rewrite startswith_app.
    replace (split_first "=" ("--uid=" +:+ String c v')).2 with (String c v') by done.
    by rewrite Hdig.
Qed.

(** The numeric value that one token marks, if any. *)
Lemma token_uid_mark token rest value :
  (if String.eqb token "-u" || String.eqb token "--uid" then
     match rest with
     | next :: _ => if isdigit next then Some next else None
     | [] => None
     end
   else fused_candidate token) = Some value
  <-> uid_mark token rest value /\ isdigit value = true.
Proof.
  destruct (String.eqb token "-u" || String.eqb token "--uid") eqn:Hplain.
  - split.
    + destruct rest as [|next rest']; [done|].
      destruct (isdigit next) eqn:Hdig; [|done]. intros [= <-]. split; [|done].
      apply orb_true_iff in Hplain as [->%String.eqb_eq| ->%String.eqb_eq];
        constructor.
    + intros [Hmark Hdig].
      destruct (isdigit_cons _ Hdig) as (c & v' & Hv & _).
      inversion Hmark; subst; try (by rewrite Hdig); done.
  - split; [apply fused_candidate_mark|].
    intros [Hmark Hdig]. by eapply mark_fused_candidate.
Qed.

Lemma extract_uid_from_tokens_step token rest :
  extract_uid_from_tokens (token :: rest)
  = match (if String.eqb token "-u" || String.eqb token "--uid" then
             match rest with
             | next :: _ => if isdigit next then Some next else None
             | [] => None
             end
           else fused_candidate token) with
    | Some value => Some value
    | None => extract_uid_from_tokens rest
    end.
Proof.
  rewrite extract_uid_from_tokens_cons.
  destruct (String.eqb token "-u" || String.eqb token "--uid"); [|done].
  destruct rest as [|next rest']; [done|]. by destruct (isdigit next).
Qed.

Lemma extract_uid_from_tokens_first tokens value :
  extract_uid_from_tokens tokens = Some value
  <-> exists pre token post,
        tokens = pre ++ token :: post
        /\ uid_mark token post value /\ isdigit value = true
        /\ (forall pre1 token1 mid value1,
              pre = pre1 ++ token1 :: mid ->
              uid_mark token1 (mid ++ token :: post) value1 ->
              isdigit value1 = false).
Proof.
  split.
  - induction tokens as [|t rest IH]; [done|].
    rewrite extract_uid_from_tokens_step.
    destruct (if String.eqb t "-u" || String.eqb t "--uid" then _ else _)
      as [found|] eqn:Hfound.
    + intros [= ->]. apply token_uid_mark in Hfound as [Hmark Hdig].
      exists [], t, rest. repeat split; [done..|].
      intros [|??] ??? Heq; discriminate Heq.
    + intros (pre & token & post & -> & Hmark & Hdig & Hfirst)%IH.
      exists (t :: pre), token, post. repeat split; [done..|].
      intros [|t1 pre1] token1 mid value1 Heq Hm1.
      * injection Heq as <- <-.
        destruct (isdigit value1) eqn:Hd1; [|done].
        assert (Some value1 = None) as Habs; [|discriminate Habs].
        rewrite <- Hfound. symmetry. by apply token_uid_mark.
      * injection Heq as <- ->. by eapply Hfirst.
  - intros (pre & token & post & -> & Hmark & Hdig & Hfirst).
    induction pre as [|t pre IH].
    + cbn [app]. rewrite extract_uid_from_tokens_step.
      by rewrite (proj2 (token_uid_mark token post value)).
    + rewrite <- app_comm_cons, extract_uid_from_tokens_step.
      destruct (if String.eqb t "-u" || String.eqb t "--uid" then _ else _)
        as [found|] eqn:Hfound.
      * apply token_uid_mark in Hfound as [Hm1 Hd1].
        rewrite (Hfirst [] t pre found eq_refl Hm1) in Hd1. discriminate Hd1.
      * apply IH. intros pre1 token1 mid value1 -> Hm1.
        by apply (Hfirst (t :: pre1) token1 mid value1).
Qed.

Lemma find_uid_in_lines_first shlex_split lines value :
  find_uid_in_lines shlex_split lines = Some value
  <-> exists pre line post,
        lines = pre ++ line :: post
        /\ Forall
             (fun earlier =>
                extract_uid_from_tokens (tokenize shlex_split earlier) = None) pre
        /\ extract_uid_from_tokens (tokenize shlex_split line) = Some value.
Proof.
  split.
  - induction lines as [|line rest IH]; [done|]. cbn [find_uid_in_lines].
    destruct (extract_uid_from_tokens (tokenize shlex_split line)) as [uid|] eqn:Hl.
    + intros [= ->]. by exists [], line, rest.
    + intros (pre & hit & post & -> & Hpre & Hhit)%IH.
      exists (line :: pre), hit, post. repeat split; [|done]. by constructor.
  - intros (pre & hit & post & -> & Hpre & Hhit).
    induction Hpre as [|line pre Hnone _ IH]; cbn [app find_uid_in_lines].
    + by rewrite Hhit.
    + by rewrite Hnone.
Qed.

(** C5.  A logical line is tokenized by [shlex.split], or by whitespace
    when that raises; the scan of the tokens returns the value of the first
    token, from the left, that marks a purely numeric value as [-u value],
    [--uid value], [-uvalue], [-u=value] or [--uid=value]; and the scan of a
    file returns what its first line with such a value returns, looking at no
    later line. *)
Theorem uid_extraction (shlex_split : string -> option (list string)) :
  (forall line,
     tokenize shlex_split line
     = match shlex_split line with
       | Some tokens => tokens
       | None => split_ws line
       end)
  /\ (forall tokens value,
        extract_uid_from_tokens tokens = Some value
        <-> exists pre token post,
              tokens = pre ++ token :: post
              /\ uid_mark token post value /\ isdigit value = true
              /\ (forall pre1 token1 mid value1,
                    pre = pre1 ++ token1 :: mid ->
                    uid_mark token1 (mid ++ token :: post) value1 ->
                    isdigit value1 = false))
  /\ (forall lines value,
        find_uid_in_lines shlex_split lines = Some value
        <-> exists pre line post,
              lines = pre ++ line :: post
              /\ Forall
                   (fun earlier =>
                      extract_uid_from_tokens (tokenize shlex_split earlier) = None)
                   pre
              /\ extract_uid_from_tokens (tokenize shlex_split line) = Some value)
  /\ (forall (fs : files) path content,
        fs !! path = Some content ->
        find_uid_in_file shlex_split fs path
        = Ok (find_uid_in_lines shlex_split
                (read_effective_loop "" (readlines content)))).
Proof.
  split; [done|]. split; [apply extract_uid_from_tokens_first|].
  split; [apply find_uid_in_lines_first|].
  intros fs path content Hfile. unfold find_uid_in_file, read_effective_lines.
  by rewrite Hfile.
Qed.

(** The build definition of the end-to-end scenario, tokenized by
    whitespace. *)
Lemma uid_extraction_witness :
  find_uid_in_file (fun _ => None)
    {[ "/r/app/Dockerfile" := "USER app" +:+ NL +:+ "RUN adduser -u 2000 app" +:+ NL ]}
    "/r/app/Dockerfile"
  = Ok (Some "2000").
Proof.
  destruct (uid_extraction (fun _ => None)) as (_ & _ & _ & Hfile).
  rewrite (Hfile {[ "/r/app/Dockerfile" :=
                      "USER app" +:+ NL +:+ "RUN adduser -u 2000 app" +:+ NL ]}
             "/r/app/Dockerfile"
             ("USER app" +:+ NL +:+ "RUN adduser -u 2000 app" +:+ NL));
    [|by rewrite lookup_singleton_eq].
  vm_compute. reflexivity.
Defined.

End extraction.

(** ** Decimal numerals *)

Section numerals.
Import Py.

Ltac digit_cases c H :=
  destruct c as [[] [] [] [] [] [] [] []]; try discriminate H.

Lemma is_digit_not_space c : is_digit c = true -> is_space c = false.
Proof. intros H. by digit_cases c H. Qed.

Lemma is_digit_not_quote c : is_digit c = true -> Ascii.eqb DQUOTE c = false.
Proof. intros H. by digit_cases c H. Qed.

Lemma is_digit_not_break c :
  is_digit c = true -> Ascii.eqb c LF = false /\ Ascii.eqb c CR = false.
Proof. intros H. by digit_cases c H. Qed.

Lemma digits_us_digits (s : string) :
  all_chars is_digit s = true ->
  exists d, NilEmpty.uint_of_string s = Some d /\ digits_us true s = Some d.
Proof.
  induction s as [|c s IH]; [by exists Nil|].
  cbn [all_chars]. intros [Hc Hs]%andb_true_iff.
  destruct (IH Hs) as (d & Hd1 & Hd2).
  cbn [NilEmpty.uint_of_string digits_us]. rewrite Hd1, Hd2.
  digit_cases c Hc; by eexists.
Qed.

Lemma all_chars_impl (p q : ascii -> bool) (s : string) :
  (forall c, p c = true -> q c = true) ->
  all_chars p s = true -> all_chars q s = true.
Proof.
  intros Hpq. induction s as [|c s IH]; [done|]. cbn [all_chars].
  intros [Hc Hs]%andb_true_iff. by rewrite (Hpq _ Hc), IH.
Qed.

Lemma lstrip_by_head p (c : ascii) (s : string) :
  p c = false -> lstrip_by p (String c s) = String c s.
Proof. intros Hc. cbn [lstrip_by]. by rewrite Hc. Qed.

Lemma rstrip_by_none p (s : string) :
  all_chars (fun c => negb (p c)) s = true -> rstrip_by p s = s.
Proof.
  induction s as [|c s IH]; [done|]. cbn [all_chars rstrip_by].
  intros [Hc Hs]%andb_true_iff. apply negb_true_iff in Hc.
  by rewrite IH, Hc, andb_false_r.
Qed.

Lemma strip_by_none p (s : string) :
  all_chars (fun c => negb (p c)) s = true -> strip_by p s = s.
Proof.
  intros Hs. unfold strip_by. destruct s as [|c s]; [done|].
  pose proof Hs as Hs'. cbn [all_chars] in Hs'.
  apply andb_true_iff in Hs' as [Hc%negb_true_iff _].
  rewrite lstrip_by_head by done. by apply rstrip_by_none.
Qed.

Lemma is_int_space_is_space c : is_int_space c = true -> is_space c = true.
Proof.
  destruct c as [[] [] [] [] [] [] [] []]; intros H; try discriminate H; done.
Qed.

Lemma isdigit_no_int_space (v : string) :
  isdigit v = true -> all_chars (fun c => negb (is_int_space c)) v = true.
Proof.
  intros [_ Hv]%andb_true_iff. revert Hv. apply all_chars_impl.
  intros c Hc. destruct (is_int_space c) eqn:Hs; [|done].
  apply is_int_space_is_space in Hs. by rewrite is_digit_not_space in Hs.
Qed.

Lemma isdigit_no_space (v : string) :
  isdigit v = true -> all_chars (fun c => negb (is_space c)) v = true.
Proof.
  intros [_ Hv]%andb_true_iff. revert Hv. apply all_chars_impl.
  intros c Hc. by rewrite is_digit_not_space.
Qed.

(** On a string of digits [int] cannot fail, and yields the number the
    digits denote. *)
Lemma int_of_str_isdigit (v : string) :
  isdigit v = true ->
  exists d, NilEmpty.uint_of_string v = Some d /\ int_of_str v = Some (Z.of_uint d).
Proof.
  intros Hv. unfold int_of_str.
  rewrite (strip_by_none _ _ (isdigit_no_int_space _ Hv)).
  apply andb_true_iff in Hv as [Hne Hall].
  destruct v as [|c s]; [done|]. cbn [all_chars] in Hall.
  apply andb_true_iff in Hall as [Hc Hs].
  destruct (digits_us_digits s Hs) as (d & Hd1 & Hd2).
  cbn [NilEmpty.uint_of_string]. rewrite Hd1.
  digit_cases c Hc; cbn; rewrite Hd2; by eexists.
Qed.

Lemma string_of_uint_digits (d : uint) :
  all_chars is_digit (NilEmpty.string_of_uint d) = true.
Proof. induction d; done. Qed.

Lemma str_of_int_nonneg (n : Z) :
  0 <= n ->
  exists d, str_of_int n = NilEmpty.string_of_uint d /\ d ≠ Nil /\ Z.of_uint d = n.
Proof.
  intros Hn. destruct n as [|p|p]; [by exists (D0 Nil)| |lia].
  exists (Pos.to_uint p). split; [done|]. split.
  - apply DecimalPos.Unsigned.to_uint_nonnil.
  - unfold Z.of_uint. by rewrite DecimalPos.Unsigned.of_to.
Qed.

Lemma str_of_int_isdigit (n : Z) : 0 <= n -> isdigit (str_of_int n) = true.
Proof.
  intros (d & -> & Hd & _)%str_of_int_nonneg. unfold isdigit.
  rewrite string_of_uint_digits, andb_true_r. by destruct d.
Qed.

Lemma int_of_str_str_of_int (n : Z) :
  0 <= n -> int_of_str (str_of_int n) = Some n.
Proof.
  intros Hn. destruct (int_of_str_isdigit _ (str_of_int_isdigit n Hn))
    as (d & Hd & ->).
  destruct (str_of_int_nonneg n Hn) as (d' & Hs & _ & <-).
  rewrite Hs, NilEmpty.usu in Hd. by injection Hd as ->.
Qed.

End numerals.

(** ** Subuid Resolver: the record of the user *)

Section registry_record.
Import Py Resolver.

Lemma has_char_lstrip_by_keeps p c (s : string) :
  has_char c s = true -> p c = false -> has_char c (lstrip_by p s) = true.
Proof.
  intros Hs Hc. induction s as [|a s IH]; [done|]. cbn [lstrip_by].
  destruct (p a) eqn:Ha; [|done]. apply IH. cbn [has_char] in Hs.
  destruct (Ascii.eqb_spec a c) as [->|_]; [congruence|done].
Qed.

Lemma has_char_rstrip_by_keeps p c (s : string) :
  has_char c s = true -> p c = false -> has_char c (rstrip_by p s) = true.
Proof.
  intros Hs Hc. induction s as [|a s IH]; [done|].
  cbn [has_char] in Hs. cbn [rstrip_by].
  destruct (Ascii.eqb_spec a c) as [->|_].
  - rewrite Hc, andb_false_r. cbn [has_char]. by rewrite Ascii.eqb_refl.
  - specialize (IH Hs). destruct (rstrip_by p s) as [|b r]; [done|].
    cbn [is_empty andb has_char] in *. by rewrite IH, orb_true_r.
Qed.

Lemma digit_cons_is_digit c d : digit_cons c = Some d -> is_digit c = true.
Proof.
  destruct c as [[] [] [] [] [] [] [] []]; intros H; try discriminate H; done.
Qed.

Lemma digits_us_chars prev_digit (s : string) d c :
  digits_us prev_digit s = Some d -> has_char c s = true ->
  is_digit c || Ascii.eqb c "_" = true.
Proof.
  revert prev_digit d. induction s as [|a s IH]; intros prev_digit d; [done|].
  cbn [digits_us has_char].
  destruct (Ascii.eqb_spec a c) as [->|_]; cbn [orb].
  - destruct (Ascii.eqb c "_"); [by rewrite orb_true_r|].
    destruct (digit_cons c) as [k|] eqn:Hc; [|done].
    by rewrite (digit_cons_is_digit _ _ Hc).
  - destruct (Ascii.eqb a "_").
    + destruct prev_digit; [|done]. destruct s as [|b s']; [done|]. apply IH.
    + destruct (digit_cons a); [|done].
      destruct (digits_us true s) as [d'|] eqn:Hs; [|done].
      intros _. by apply (IH true d').
Qed.

(** [int] rejects a string that holds a character which is neither a
    digit, nor white space, nor a sign, nor an underscore; and it rejects
    the empty string. *)
Lemma int_of_str_rejects (s : string) c :
  has_char c s = true ->
  is_digit c || is_int_space c || Ascii.eqb c "+" || Ascii.eqb c "-"
  || Ascii.eqb c "_" = false ->
  int_of_str s = None.
Proof.
  intros Hs Hc.
  apply orb_false_iff in Hc as [Hc Hus]. apply orb_false_iff in Hc as [Hc Hminus].
  apply orb_false_iff in Hc as [Hc Hplus]. apply orb_false_iff in Hc as [Hdigit Hspace].
  assert (has_char c (strip_by is_int_space s) = true) as Hstrip.
  { unfold strip_by. apply has_char_rstrip_by_keeps; [|done].
    by apply has_char_lstrip_by_keeps. }
  assert (forall r, has_char c r = true -> digits_us false r = None) as Hnone.
  { intros r Hr. destruct (digits_us false r) as [d|] eqn:Hd; [|done].
    pose proof (digits_us_chars _ _ _ _ Hd Hr) as Hok.
    by rewrite Hdigit, Hus in Hok. }
  unfold int_of_str.
  destruct (strip_by is_int_space s) as [|a r] eqn:Hr; [done|].
  pose proof (Hnone _ Hstrip) as Hall.
  assert (Ascii.eqb a "+" || Ascii.eqb a "-" = true ->
          digits_us false r = None) as Hsign.
  { intros Ha. apply Hnone. cbn [has_char] in Hstrip.
    destruct (Ascii.eqb_spec a c) as [->|_]; [|done].
    by rewrite Hplus, Hminus in Ha. }
  destruct a as [[] [] [] [] [] [] [] []]; lazy beta match;
    first [by rewrite Hall | by rewrite Hsign].
Qed.

Lemma int_of_str_empty : int_of_str "" = None.
Proof. done. Qed.

(** C10.  A registry that does not exist is fatal.  Otherwise lines that
    are blank, comments, shorter than three fields (also when their first
    field is the user) or records of another user are passed over without an
    error; the base is the second field of the first line with at least
    three fields whose first field is the user, and on that line only a
    second field that [int] rejects is fatal: a field of digits gives the
    number the digits denote, an empty field and a field with a character
    that no integer literal has are fatal; without such a line the scan ends
    with the missing-entry error. *)
Theorem subuid_base_of_first_full_record username (fs : files) subuid_file :
  (fs !! subuid_file = None ->
   get_current_user_subuid username fs subuid_file
   = Err (SystemExit ("subuid file not found: " +:+ subuid_file)))
  /\ (forall content pre rest,
        fs !! subuid_file = Some content ->
        readlines content = pre ++ rest ->
        Forall
          (fun raw_line =>
             is_empty (strip raw_line) || startswith (strip raw_line) "#"
             || (length (split_on ":" (strip raw_line)) <? 3)%nat
             || negb (String.eqb (nth 0 (split_on ":" (strip raw_line)) "")
                        username)
             = true) pre ->
        (rest = [] ->
         get_current_user_subuid username fs subuid_file
         = Err (SystemExit ("No subuid entry found for user " +:+ username)))
        /\ (forall raw_line post,
              rest = raw_line :: post ->
              is_empty (strip raw_line) = false ->
              startswith (strip raw_line) "#" = false ->
              (3 <= length (split_on ":" (strip raw_line)))%nat ->
              nth 0 (split_on ":" (strip raw_line)) "" = username ->
              let field := nth 1 (split_on ":" (strip raw_line)) "" in
              get_current_user_subuid username fs subuid_file
              = match int_of_str field with
                | Some base => Ok base
                | None =>
                    Err (SystemExit
                           ("Invalid subuid base for " +:+ username +:+ ": "
                              +:+ field))
                end
              /\ (forall d,
                    isdigit field = true ->
                    NilEmpty.uint_of_string field = Some d ->
                    get_current_user_subuid username fs subuid_file
                    = Ok (Z.of_uint d))
              /\ (field = ""
                  \/ (exists c,
                        has_char c field = true
                        /\ is_digit c || is_int_space c || Ascii.eqb c "+"
                           || Ascii.eqb c "-" || Ascii.eqb c "_" = false) ->
                  get_current_user_subuid username fs subuid_file
                  = Err (SystemExit
                           ("Invalid subuid base for " +:+ username +:+ ": "
                              +:+ field))))).
Proof.
  split.
  - intros Hfile. unfold get_current_user_subuid. by rewrite Hfile.
  - intros content pre rest Hfile Hlines Hpre.
    unfold get_current_user_subuid. rewrite Hfile, Hlines.
    assert (subuid_loop username (pre ++ rest) = subuid_loop username rest)
      as ->.
    { clear Hlines. induction Hpre as [|raw_line pre Hpass _ IH]; [done|].
      rewrite <- app_comm_cons. by rewrite subuid_loop_passes. }
    split; [by intros ->|].
    intros raw_line post -> Hblank Hcomment Hlen Hname. cbv zeta.
    set (field := nth 1 (split_on ":" (strip raw_line)) "").
    assert (subuid_loop username (raw_line :: post)
            = match int_of_str field with
              | Some base => Ok base
              | None =>
                  Err (SystemExit
                         ("Invalid subuid base for " +:+ username +:+ ": "
                            +:+ field))
              end) as Hrecord.
    { cbn [subuid_loop]. rewrite Hblank, Hcomment. cbn [orb].
      apply Nat.ltb_ge in Hlen. rewrite Hlen.
      apply String.eqb_eq in Hname. by rewrite Hname. }
    split; [done|]. rewrite Hrecord. split.
    + intros d Hdigits Hd.
      destruct (int_of_str_isdigit _ Hdigits) as (d' & Hd' & ->).
      rewrite Hd in Hd'. by injection Hd' as <-.
    + intros [Hempty|(c & Hc & Hnot)].
      * by rewrite Hempty, int_of_str_empty.
      * by rewrite (int_of_str_rejects _ _ Hc Hnot).
Qed.

(** A registry in which a two-field line of the user precedes the full
    record; and one whose record has a base that is no integer. *)
Lemma subuid_base_of_first_full_record_witness :
  get_current_user_subuid "alice"
    {[ "/etc/subuid" :=
         "# subordinate uids" +:+ NL +:+ "alice:1" +:+ NL
           +:+ "bob:100000:65536" +:+ NL +:+ "alice:165536:65536" +:+ NL
           +:+ "alice:7:1" +:+ NL ]}
    "/etc/subuid"
  = Ok 165536
  /\ get_current_user_subuid "alice"
       {[ "/etc/subuid" := "alice:1x:65536" +:+ NL +:+ "alice:7:1" +:+ NL ]}
       "/etc/subuid"
     = Err (SystemExit "Invalid subuid base for alice: 1x").
Proof.
  split.
  - destruct (subuid_base_of_first_full_record "alice"
                {[ "/etc/subuid" :=
                     "# subordinate uids" +:+ NL +:+ "alice:1" +:+ NL
                       +:+ "bob:100000:65536" +:+ NL
                       +:+ "alice:165536:65536" +:+ NL
                       +:+ "alice:7:1" +:+ NL ]}
                "/etc/subuid") as [_ Hfile].
    destruct (Hfile _
                ["# subordinate uids" +:+ NL; "alice:1" +:+ NL;
                 "bob:100000:65536" +:+ NL]
                ["alice:165536:65536" +:+ NL; "alice:7:1" +:+ NL]
                eq_refl eq_refl) as [_ Hrecord].
    + repeat constructor.
    + destruct (Hrecord ("alice:165536:65536" +:+ NL) ["alice:7:1" +:+ NL]
                  eq_refl eq_refl eq_refl (le_n 3) eq_refl)
        as (_ & Hdigits & _).
      exact (Hdigits (Pos.to_uint 165536) eq_refl eq_refl).
  - destruct (subuid_base_of_first_full_record "alice"
                {[ "/etc/subuid" := "alice:1x:65536" +:+ NL +:+ "alice:7:1" +:+ NL ]}
                "/etc/subuid") as [_ Hfile].
    destruct (Hfile _ [] ["alice:1x:65536" +:+ NL; "alice:7:1" +:+ NL]
                eq_refl eq_refl) as [_ Hrecord]; [constructor|].
    destruct (Hrecord ("alice:1x:65536" +:+ NL) ["alice:7:1" +:+ NL]
                eq_refl eq_refl eq_refl (le_n 3) eq_refl)
      as (_ & _ & Hfatal).
    apply Hfatal. right. exists "x"%char. by split.
Defined.

End registry_record.

(** ** Mapping Store: the line format *)

Section line_format.
Import Py Resolver.

Lemma has_char_app c (s t : string) :
  has_char c (s +:+ t) = has_char c s || has_char c t.
Proof.
  induction s as [|a s IH]; [done|].
  rewrite app_cons. cbn [has_char]. by rewrite IH, orb_assoc.
Qed.

Lemma split_first_app sep (name rest : string) :
  has_char sep name = false ->
  split_first sep (name +:+ String sep rest) = (name, rest).
Proof.
  induction name as [|a name IH].
  - intros _. rewrite app_nil_l. cbn [split_first]. by rewrite Ascii.eqb_refl.
  - cbn [has_char]. intros [Ha Hname]%orb_false_iff.
    rewrite app_cons. cbn [split_first]. by rewrite Ha, IH.
Qed.

Lemma rstrip_by_app p (s t : string) :
  is_empty (rstrip_by p t) = false ->
  rstrip_by p (s +:+ t) = s +:+ rstrip_by p t.
Proof.
  intros Ht. induction s as [|a s IH]; [done|].
  rewrite !app_cons. cbn [rstrip_by]. rewrite IH.
  by rewrite is_empty_app, Ht, andb_false_r.
Qed.

Lemma rstrip_by_app_all p (v w : string) :
  all_chars (fun c => negb (p c)) v = true -> all_chars p w = true ->
  rstrip_by p (v +:+ w) = v.
Proof.
  intros Hv Hw. induction v as [|a v IH].
  - rewrite app_nil_l. induction w as [|b w IHw]; [done|].
    cbn [all_chars] in Hw. apply andb_true_iff in Hw as [Hb Hw].
    cbn [rstrip_by]. by rewrite IHw, Hb.
  - cbn [all_chars] in Hv. apply andb_true_iff in Hv as [Ha%negb_true_iff Hv].
    rewrite app_cons. cbn [rstrip_by]. by rewrite IH, Ha, andb_false_r.
Qed.

Lemma lstrip_by_length p (s : string) :
  (String.length (lstrip_by p s) <= String.length s)%nat.
Proof.
  induction s as [|a s IH]; [done|]. cbn [lstrip_by].
  destruct (p a); cbn [String.length]; lia.
Qed.

Lemma lstrip_by_fixed p (a : ascii) (s : string) :
  lstrip_by p (String a s) = String a s -> p a = false.
Proof.
  cbn [lstrip_by]. destruct (p a); [|done]. intros Heq.
  pose proof (lstrip_by_length p s) as Hlen. rewrite Heq in Hlen.
  cbn [String.length] in Hlen. lia.
Qed.

Lemma readlines_line (l rest : string) :
  has_char LF l = false -> has_char CR l = false ->
  readlines (l +:+ NL +:+ rest) = (l +:+ NL) :: readlines rest.
Proof.
  induction l as [|a l IH]; [done|]. cbn [has_char].
  intros [Ha1 Hl1]%orb_false_iff [Ha2 Hl2]%orb_false_iff.
  rewrite !app_cons. cbn [readlines]. by rewrite Ha1, Ha2, IH.
Qed.

Lemma join_lines (line : string) (lines : list string) :
  join NL (line :: lines) +:+ NL
  = foldr (fun l acc => l +:+ NL +:+ acc) "" (line :: lines).
Proof.
  revert line. induction lines as [|next lines IH]; intros line; [done|].
  cbn [join foldr]. rewrite !app_assoc. do 2 f_equal. apply (IH next).
Qed.

Lemma readlines_lines (lines : list string) :
  Forall (fun l => has_char LF l = false /\ has_char CR l = false) lines ->
  readlines (foldr (fun l acc => l +:+ NL +:+ acc) "" lines)
  = (fun l => l +:+ NL) <$> lines.
Proof.
  induction 1 as [|l lines [Hlf Hcr] _ IH]; [done|].
  cbn [foldr fmap list_fmap]. by rewrite readlines_line, IH.
Qed.

(** What [plain_name] gives, one fact at a time. *)
Lemma plain_name_facts (name : string) :
  plain_name name = true ->
  has_char ":" name = false /\ has_char LF name = false
  /\ has_char CR name = false
  /\ lstrip_by is_space name = name /\ rstrip_by is_space name = name
  /\ startswith name "#" = false.
Proof.
  unfold plain_name. rewrite !andb_true_iff, !negb_true_iff, !String.eqb_eq.
  tauto.
Qed.

Lemma strip_entry_line (name v : string) :
  plain_name name = true -> rendered_value v ->
  strip (name +:+ ": " +:+ v +:+ NL) = name +:+ ": " +:+ v.
Proof.
  intros (_ & _ & _ & Hl & _ & _)%plain_name_facts (Hne & Hsp & _).
  unfold strip, strip_by.
  assert (lstrip_by is_space (name +:+ ": " +:+ v +:+ NL)
          = name +:+ ": " +:+ v +:+ NL) as ->.
  { destruct name as [|a name]; [done|].
    rewrite app_cons. apply lstrip_by_head. by apply (lstrip_by_fixed _ _ _ Hl). }
  assert (rstrip_by is_space (v +:+ NL) = v) as Hv
    by (by apply rstrip_by_app_all).
  rewrite rstrip_by_app.
  - f_equal. change (": " +:+ v +:+ NL) with (": " +:+ (v +:+ NL)).
    rewrite (rstrip_by_app _ ": "); rewrite Hv; done.
  - change (": " +:+ v +:+ NL) with (": " +:+ (v +:+ NL)).
    rewrite (rstrip_by_app _ ": "); rewrite Hv; done.
Qed.

Lemma entry_key_value (name v : string) :
  plain_name name = true -> rendered_value v ->
  split_first ":" (name +:+ ": " +:+ v) = (name, " " +:+ v)
  /\ strip name = name
  /\ strip_by (Ascii.eqb DQUOTE) (strip (" " +:+ v)) = v.
Proof.
  intros (Hcolon & _ & _ & Hl & Hr & _)%plain_name_facts (Hne & Hsp & Hq & _).
  split; [|split].
  - by apply (split_first_app ":" name (" " +:+ v)).
  - unfold strip, strip_by. by rewrite Hl, Hr.
  - assert (strip (" " +:+ v) = v) as ->; [|by apply strip_by_none].
    unfold strip, strip_by. change (" " +:+ v) with (String " " v).
    cbn [lstrip_by is_space]. by apply (strip_by_none is_space).
Qed.

Lemma entry_line_guards (name v : string) :
  plain_name name = true -> rendered_value v ->
  is_empty (name +:+ ": " +:+ v) = false
  /\ startswith (name +:+ ": " +:+ v) "#" = false
  /\ String.eqb (name +:+ ": " +:+ v) "{}" = false
  /\ String.eqb (name +:+ ": " +:+ v) "[]" = false
  /\ has_char ":" (name +:+ ": " +:+ v) = true.
Proof.
  intros (_ & _ & _ & _ & _ & Hhash)%plain_name_facts _.
  assert (has_char ":" (name +:+ ": " +:+ v) = true) as Hcolon.
  { rewrite has_char_app. apply orb_true_iff. by right. }
  repeat split; [| | | |done].
  - rewrite is_empty_app. by rewrite andb_false_r.
  - destruct name as [|a name]; [done|]. rewrite app_cons.
    cbn [startswith] in *. done.
  - apply String.eqb_neq. intros Heq. by rewrite Heq in Hcolon.
  - apply String.eqb_neq. intros Heq. by rewrite Heq in Hcolon.
Qed.

(** The loop of [load_yaml_simple] on a line that [yaml_text] wrote. *)
Lemma load_yaml_simple_loop_entry (mapping : uid_map) (name v : string) rest :
  plain_name name = true -> rendered_value v ->
  load_yaml_simple_loop mapping ((name +:+ ": " +:+ v +:+ NL) :: rest)
  = if String.eqb v "null" || String.eqb v "~" then
      load_yaml_simple_loop (<[name := None]> mapping) rest
    else if isdigit v then
      match int_of_str v with
      | Some n => load_yaml_simple_loop (<[name := Some n]> mapping) rest
      | None =>
          Err (ValueError
                 ("invalid literal for int() with base 10: '" +:+ v +:+ "'"))
      end
    else
      Err (ValueError
             ("Unsupported value '" +:+ v +:+ "' for container '" +:+ name +:+ "'")).
Proof.
  intros Hname Hv. cbn [load_yaml_simple_loop].
  rewrite (strip_entry_line _ _ Hname Hv).
  destruct (entry_line_guards _ _ Hname Hv) as (-> & -> & -> & -> & ->).
  destruct (entry_key_value _ _ Hname Hv) as (-> & -> & ->).
  destruct Hv as (-> & _). done.
Qed.

Lemma all_chars_has_char p c (v : string) :
  all_chars p v = true -> p c = false -> has_char c v = false.
Proof.
  intros Hv Hc. induction v as [|a v IH]; [done|].
  cbn [all_chars] in Hv. apply andb_true_iff in Hv as [Ha Hv].
  cbn [has_char]. rewrite IH by done.
  destruct (Ascii.eqb_spec a c) as [->|]; [congruence|done].
Qed.

Lemma rendered_null : rendered_value "null".
Proof. by repeat split. Qed.

Lemma rendered_int (n : Z) : 0 <= n -> rendered_value (str_of_int n).
Proof.
  intros Hn. pose proof (str_of_int_isdigit n Hn) as Hdig.
  pose proof Hdig as [Hne Hall]%andb_true_iff.
  repeat split.
  - by apply negb_true_iff.
  - by apply isdigit_no_space.
  - revert Hall. apply all_chars_impl. intros c Hc.
    by rewrite is_digit_not_quote.
  - by apply (all_chars_has_char is_digit).
  - by apply (all_chars_has_char is_digit).
Qed.

Lemma isdigit_not_null (v : string) :
  isdigit v = true -> String.eqb v "null" || String.eqb v "~" = false.
Proof.
  intros (c & v' & -> & Hc)%isdigit_cons.
  destruct c as [[] [] [] [] [] [] [] []]; try discriminate Hc; done.
Qed.

Lemma load_yaml_simple_loop_rendered (mapping : uid_map) item rest :
  plain_entry item = true ->
  load_yaml_simple_loop mapping ((render_entry item +:+ NL) :: rest)
  = load_yaml_simple_loop (<[item.1 := item.2]> mapping) rest.
Proof.
  destruct item as [name [uid|]]; unfold plain_entry, render_entry; cbn [fst snd];
    intros [Hname Huid]%andb_true_iff; rewrite !app_assoc.
  - apply Z.leb_le in Huid.
    rewrite load_yaml_simple_loop_entry by auto using rendered_int.
    rewrite (isdigit_not_null _ (str_of_int_isdigit uid Huid)).
    by rewrite str_of_int_isdigit, int_of_str_str_of_int.
  - by rewrite load_yaml_simple_loop_entry by auto using rendered_null.
Qed.

Lemma load_yaml_simple_loop_items (mapping : uid_map) items :
  Forall (fun item => plain_entry item = true) items ->
  load_yaml_simple_loop mapping
    ((fun l => l +:+ NL) <$> (render_entry <$> items))
  = Ok (foldl (fun (m : uid_map) item => <[item.1 := item.2]> m) mapping items).
Proof.
  intros Hall. revert mapping.
  induction Hall as [|item items Hitem _ IH]; intros mapping; [done|].
  cbn [fmap list_fmap foldl]. fold (@fmap list _ _ _ render_entry items).
  fold (@fmap list _ _ _ (fun l => l +:+ NL) (render_entry <$> items)).
  by rewrite load_yaml_simple_loop_rendered, IH.
Qed.

Lemma foldl_insert_union {V} (acc : gmap string V) (items : list (string * V)) :
  NoDup items.*1 ->
  foldl (fun (m : gmap string V) item => <[item.1 := item.2]> m) acc items
  = list_to_map items ∪ acc.
Proof.
  revert acc. induction items as [|[k v] items IH]; intros acc Hnd.
  - by rewrite list_to_map_nil, (left_id_L ∅ (∪)).
  - cbn [fmap list_fmap fst] in Hnd. apply NoDup_cons in Hnd as [Hk Hnd].
    cbn [foldl fst snd]. rewrite IH by done. rewrite list_to_map_cons.
    rewrite <- insert_union_l. symmetry. apply insert_union_r.
    by apply not_elem_of_list_to_map_1.
Qed.

Lemma sorted_items_perm {V} (mapping : gmap string V) :
  sorted_items mapping ≡ₚ map_to_list mapping.
Proof. apply merge_sort_Permutation. Qed.

Lemma sorted_items_to_map {V} (mapping : gmap string V) :
  foldl (fun (m : gmap string V) item => <[item.1 := item.2]> m) ∅
    (sorted_items mapping)
  = mapping.
Proof.
  assert (NoDup (sorted_items mapping).*1) as Hnd.
  { rewrite sorted_items_perm. apply NoDup_fst_map_to_list. }
  rewrite foldl_insert_union by done. rewrite (right_id_L ∅ (∪)).
  rewrite (list_to_map_proper _ (map_to_list mapping) Hnd (sorted_items_perm _)).
  apply list_to_map_to_list.
Qed.

Lemma plain_mapping_sorted (mapping : uid_map) :
  plain_mapping mapping = true ->
  Forall (fun item => plain_entry item = true) (sorted_items mapping).
Proof.
  unfold plain_mapping. rewrite forallb_forall. intros Hall.
  rewrite sorted_items_perm. apply Forall_forall. intros item Hin.
  apply Hall. by apply list_elem_of_In.
Qed.

Lemma render_entry_no_break item :
  plain_entry item = true ->
  has_char LF (render_entry item) = false /\ has_char CR (render_entry item) = false.
Proof.
  destruct item as [name uid]. unfold plain_entry, render_entry. cbn [fst snd].
  intros [(_ & Hlf & Hcr & _)%plain_name_facts Huid]%andb_true_iff.
  assert (rendered_value
            match uid with None => "null" | Some uid => str_of_int uid end)
    as (_ & _ & _ & Hvlf & Hvcr).
  { destruct uid as [uid|]; [|apply rendered_null].
    apply rendered_int. by apply Z.leb_le. }
  by rewrite !has_char_app, Hlf, Hcr, Hvlf, Hvcr.
Qed.

(** The text written for a mapping with at least one entry. *)
Lemma yaml_text_lines (mapping : uid_map) item items :
  sorted_items mapping = item :: items ->
  yaml_text mapping
  = foldr (fun l acc => l +:+ NL +:+ acc) "" (render_entry <$> item :: items).
Proof. intros Hitems. unfold yaml_text. rewrite Hitems. apply join_lines. Qed.

Lemma yaml_text_empty (mapping : uid_map) :
  sorted_items mapping = [] -> mapping = ∅ /\ yaml_text mapping = "{}" +:+ NL.
Proof.
  intros Hitems. split.
  - apply map_to_list_empty_iff. apply Permutation_nil_r.
    by rewrite <- sorted_items_perm, Hitems.
  - unfold yaml_text. by rewrite Hitems.
Qed.

(** The line parser reads back what [yaml_text] wrote. *)
Lemma load_yaml_simple_loop_yaml_text (mapping : uid_map) :
  plain_mapping mapping = true ->
  load_yaml_simple_loop ∅ (readlines (yaml_text mapping)) = Ok mapping.
Proof.
  intros Hplain%plain_mapping_sorted.
  destruct (sorted_items mapping) as [|item items] eqn:Hitems.
  - by destruct (yaml_text_empty _ Hitems) as [-> ->].
  - rewrite (yaml_text_lines _ _ _ Hitems), readlines_lines.
    + rewrite load_yaml_simple_loop_items by done.
      by rewrite <- Hitems, sorted_items_to_map.
    + apply Forall_fmap. eapply Forall_impl; [exact Hplain|].
      intros entry. apply render_entry_no_break.
Qed.

Lemma rstrip_by_keeps p c (s : string) :
  has_char c s = true -> p c = false -> is_empty (rstrip_by p s) = false.
Proof.
  intros Hs Hc. induction s as [|a s IH]; [done|].
  cbn [has_char] in Hs. cbn [rstrip_by].
  destruct (Ascii.eqb_spec a c) as [->|_].
  - by rewrite Hc, andb_false_r.
  - by rewrite IH.
Qed.

Lemma strip_keeps c (s : string) :
  has_char c s = true -> is_space c = false -> is_empty (strip s) = false.
Proof.
  intros Hs Hc. unfold strip, strip_by. apply (rstrip_by_keeps _ c); [|done].
  induction s as [|a s IH]; [done|]. cbn [has_char] in Hs. cbn [lstrip_by].
  destruct (is_space a) eqn:Ha; [|done].
  apply IH. destruct (Ascii.eqb_spec a c) as [->|_]; [congruence|done].
Qed.

Lemma read_text_no_cr (s : string) : has_char CR s = false -> read_text s = s.
Proof.
  induction s as [|a s IH]; [done|]. cbn [has_char read_text].
  intros [-> Hs]%orb_false_iff. by rewrite IH.
Qed.

Lemma rendered_lines_no_cr (entries : list (string * option Z)) :
  Forall (fun item => plain_entry item = true) entries ->
  has_char CR (foldr (fun l acc => l +:+ NL +:+ acc) "" (render_entry <$> entries))
  = false.
Proof.
  induction 1 as [|entry entries Hentry _ IH]; [done|].
  cbn [fmap list_fmap foldr]. rewrite !has_char_app.
  destruct (render_entry_no_break _ Hentry) as [_ ->].
  fold (@fmap list _ _ _ render_entry entries). by rewrite IH.
Qed.

Lemma read_text_yaml_text (mapping : uid_map) :
  plain_mapping mapping = true -> read_text (yaml_text mapping) = yaml_text mapping.
Proof.
  intros Hplain%plain_mapping_sorted. apply read_text_no_cr.
  destruct (sorted_items mapping) as [|item items] eqn:Hitems.
  - by destruct (yaml_text_empty _ Hitems) as [_ ->].
  - rewrite (yaml_text_lines _ _ _ Hitems). by apply rendered_lines_no_cr.
Qed.

Lemma yaml_text_not_blank (mapping : uid_map) :
  is_empty (strip (yaml_text mapping)) = false.
Proof.
  destruct (sorted_items mapping) as [|item items] eqn:Hitems.
  - by destruct (yaml_text_empty _ Hitems) as [_ ->].
  - apply (strip_keeps ":"); [|done].
    rewrite (yaml_text_lines _ _ _ Hitems). cbn [fmap list_fmap foldr].
    unfold render_entry at 1. rewrite !has_char_app.
    cbn [has_char Ascii.eqb]. by rewrite !orb_true_r.
Qed.

End line_format.

(** ** Mapping Store: value coercion *)

Section coercion.
Import Py Resolver.

(** The line parser on one entry line: null-like and empty tokens give an
    absent UID, a string of digits gives the number it denotes, and every
    other token raises [ValueError] with the token and the container. *)
Lemma value_coercion_fallback (mapping : uid_map) raw_line rest key val :
  is_empty (strip raw_line) = false ->
  startswith (strip raw_line) "#" = false ->
  String.eqb (strip raw_line) "{}" = false ->
  String.eqb (strip raw_line) "[]" = false ->
  has_char ":" (strip raw_line) = true ->
  key = strip (split_first ":" (strip raw_line)).1 ->
  val = strip_by (Ascii.eqb DQUOTE) (strip (split_first ":" (strip raw_line)).2) ->
  (val = "" \/ val = "null" \/ val = "~" ->
   load_yaml_simple_loop mapping (raw_line :: rest)
   = load_yaml_simple_loop (<[key := None]> mapping) rest)
  /\ (isdigit val = true ->
      exists d,
        NilEmpty.uint_of_string val = Some d
        /\ load_yaml_simple_loop mapping (raw_line :: rest)
           = load_yaml_simple_loop (<[key := Some (Z.of_uint d)]> mapping) rest)
  /\ (val ≠ "" -> val ≠ "null" -> val ≠ "~" -> isdigit val = false ->
      load_yaml_simple_loop mapping (raw_line :: rest)
      = Err (ValueError
               ("Unsupported value '" +:+ val +:+ "' for container '"
                  +:+ key +:+ "'"))).
Proof.
  intros H1 H2 H3 H4 H5 -> ->. cbn [load_yaml_simple_loop].
  rewrite H1, H2, H3, H4, H5. cbn [orb negb].
  destruct (split_first ":" (strip raw_line)) as [name value]. cbn [fst snd].
  set (val := strip_by (Ascii.eqb DQUOTE) (strip value)).
  split; [|split].
  - intros [->| [->| ->]]; done.
  - intros Hdig. destruct (int_of_str_isdigit _ Hdig) as (d & Hd & Hint).
    exists d. split; [done|].
    assert (is_empty val = false) as ->
      by (by destruct (isdigit_cons _ Hdig) as (? & ? & -> & _)).
    cbn [orb]. by rewrite (isdigit_not_null _ Hdig), Hdig, Hint.
  - intros Hne Hnull Htilde Hdig.
    apply String.eqb_neq in Hnull, Htilde. rewrite Hnull, Htilde, Hdig.
    destruct val; done.
Qed.

(** The loop over [data.items()] on one item: [None] gives an absent UID,
    every instance of [int], negative numbers and booleans among them, is
    kept as it is, a string of digits gives the number it denotes, and every
    other value raises [SystemExit] with the container and the value. *)
Lemma value_coercion_structured (result : uid_map) key value rest :
  match value with
  | YNull =>
      coerce_items result ((key, value) :: rest)
      = coerce_items (<[py_str key := None]> result) rest
  | YInt n =>
      coerce_items result ((key, value) :: rest)
      = coerce_items (<[py_str key := Some n]> result) rest
  | YBool b =>
      coerce_items result ((key, value) :: rest)
      = coerce_items (<[py_str key := Some (Z.b2z b)]> result) rest
  | YStr s =>
      if isdigit s then
        exists d,
          NilEmpty.uint_of_string s = Some d
          /\ coerce_items result ((key, value) :: rest)
             = coerce_items (<[py_str key := Some (Z.of_uint d)]> result) rest
      else
        coerce_items result ((key, value) :: rest)
        = Err (SystemExit
                 ("Unsupported UID value for container '" +:+ py_str key
                    +:+ "': " +:+ py_str value))
  | YOther _ _ =>
      coerce_items result ((key, value) :: rest)
      = Err (SystemExit
               ("Unsupported UID value for container '" +:+ py_str key
                  +:+ "': " +:+ py_str value))
  end.
Proof.
  destruct value as [|b|n|s|shown truthy]; try done.
  cbn [coerce_items]. destruct (isdigit s) eqn:Hdig; [|done].
  destruct (int_of_str_isdigit _ Hdig) as (d & Hd & Hint).
  exists d. by rewrite Hint.
Qed.

(** The structured path never raises [ValueError]. *)
Lemma coerce_items_no_value_error (result : uid_map) items msg :
  coerce_items result items ≠ Err (ValueError msg).
Proof.
  revert result. induction items as [|[key value] items IH]; intros result; [done|].
  destruct value as [|b|n|s|shown truthy]; cbn [coerce_items]; try done.
  destruct (isdigit s) eqn:Hdig; [|done].
  destruct (int_of_str_isdigit _ Hdig) as (d & _ & ->). apply IH.
Qed.

Lemma coerce_items_denoted (result : uid_map) (items : list (string * option Z)) :
  coerce_items result (yaml_item <$> items)
  = Ok (foldl (fun (m : uid_map) item => <[item.1 := item.2]> m) result items).
Proof.
  revert result. induction items as [|[name [uid|]] items IH]; intros result;
    [done|apply IH..].
Qed.

(** C7 at a failing input.  With a YAML engine that reads [app: true] as
    the boolean and [app: -5] as the integer, the structured path accepts
    both values without an error, while the line parser raises on the
    same two files. *)
Theorem structured_path_accepts_boolean_and_negative :
  load_container_map
    (Some (fun _ => Some (YDict [(YStr "app", YBool true)])))
    {[ "m.yml" := "app: true" +:+ NL ]} "m.yml"
  = Ok {[ "app" := Some 1 ]}
  /\ load_container_map
       (Some (fun _ => Some (YDict [(YStr "app", YInt (-5))])))
       {[ "m.yml" := "app: -5" +:+ NL ]} "m.yml"
     = Ok {[ "app" := Some (-5) ]}
  /\ load_container_map None {[ "m.yml" := "app: true" +:+ NL ]} "m.yml"
     = Err (ValueError "Unsupported value 'true' for container 'app'")
  /\ load_container_map None {[ "m.yml" := "app: -5" +:+ NL ]} "m.yml"
     = Err (ValueError "Unsupported value '-5' for container 'app'").
Proof. repeat split; vm_compute; reflexivity. Qed.

End coercion.

(** ** Mapping Store: save, then load *)

Section round_trip.
Import Py Resolver.

Lemma load_yaml_simple_written (fs : files) path (mapping : uid_map) :
  plain_mapping mapping = true ->
  fs !! path = Some (yaml_text mapping) ->
  load_yaml_simple fs path = Ok mapping.
Proof.
  intros Hplain Hfile. unfold load_yaml_simple. rewrite Hfile.
  by apply load_yaml_simple_loop_yaml_text.
Qed.

Lemma load_structured_written safe_load (fs : files) path (mapping : uid_map) :
  plain_mapping mapping = true ->
  fs !! path = Some (yaml_text mapping) ->
  safe_load (yaml_text mapping) = Some (denoted mapping) ->
  load_container_map (Some safe_load) fs path = Ok mapping.
Proof.
  intros Hplain Hfile Hdoc. unfold load_container_map.
  rewrite Hfile. cbn zeta. rewrite read_text_yaml_text by done.
  rewrite yaml_text_not_blank, Hdoc. unfold denoted, py_truthy.
  case_bool_decide as Hnil; cbn [negb].
  - apply fmap_nil_inv in Hnil.
    by destruct (yaml_text_empty _ Hnil) as [-> _].
  - by rewrite coerce_items_denoted, sorted_items_to_map.
Qed.

(** C2, as the code has it.  For a mapping whose names are plain (no colon,
    no line break, no whitespace at either end, no leading [#]) and whose
    UIDs are absent or non-negative, writing it and loading the written file
    gives the mapping back: through the line parser when no YAML engine is
    installed, and through the structured path when the installed engine
    reads the file as the block mapping it denotes. *)
Theorem save_load_round_trip (yaml : yaml_engine) (fs : files) path
    (mapping : uid_map) :
  plain_mapping mapping = true ->
  (forall safe_load,
     yaml = Some safe_load ->
     safe_load (yaml_text mapping) = Some (denoted mapping)) ->
  load_container_map yaml (write_yaml mapping path fs) path = Ok mapping.
Proof.
  intros Hplain Hengine.
  assert (write_yaml mapping path fs !! path = Some (yaml_text mapping)) as Hfile
    by apply lookup_insert_eq.
  destruct yaml as [safe_load|].
  - apply load_structured_written; [done..|]. by apply Hengine.
  - unfold load_container_map. rewrite Hfile. cbn zeta.
    rewrite read_text_yaml_text by done. rewrite yaml_text_not_blank.
    by apply load_yaml_simple_written.
Qed.

(** The sample map, without a YAML engine. *)
Lemma save_load_round_trip_witness :
  plain_mapping Samples.host_map = true
  /\ load_container_map None
       (write_yaml Samples.host_map "container_host_uids.yml" ∅)
       "container_host_uids.yml"
     = Ok Samples.host_map.
Proof.
  assert (plain_mapping Samples.host_map = true) as Hplain
    by (vm_compute; reflexivity).
  split; [exact Hplain|].
  apply (save_load_round_trip None ∅ "container_host_uids.yml"
           Samples.host_map Hplain).
  intros safe_load Hnone. discriminate Hnone.
Defined.

(** C2 as stated fails: the entry of a container named [a:b] is written as
    the line [a:b: 5], which the line parser splits at the first colon. *)
Lemma colon_name_not_restored :
  load_container_map None (write_yaml {[ "a:b" := Some 5 ]} "m.yml" ∅) "m.yml"
  = Err (ValueError "Unsupported value 'b: 5' for container 'a'")
  /\ load_container_map None (write_yaml {[ "a:b" := Some 5 ]} "m.yml" ∅) "m.yml"
     ≠ Ok {[ "a:b" := Some 5 ]}.
Proof.
  assert (load_container_map None
            (write_yaml {[ "a:b" := Some 5 ]} "m.yml" ∅) "m.yml"
          = Err (ValueError "Unsupported value 'b: 5' for container 'a'")) as Heq
    by (vm_compute; reflexivity).
  split; [exact Heq|]. rewrite Heq. discriminate.
Qed.

(** Each of the other conditions on a name is needed as well: a leading
    space is stripped from the key, a line that starts with [#] is taken for
    a comment, and a line break inside a name splits its line. *)
Lemma other_names_not_restored :
  load_container_map None (write_yaml {[ " a" := Some 5 ]} "m.yml" ∅) "m.yml"
  = Ok {[ "a" := Some 5 ]}
  /\ load_container_map None (write_yaml {[ "#a" := Some 5 ]} "m.yml" ∅) "m.yml"
     = Ok ∅
  /\ load_container_map None
       (write_yaml {[ "a" +:+ NL +:+ "b" := Some 5 ]} "m.yml" ∅) "m.yml"
     = Ok {[ "b" := Some 5 ]}.
Proof. repeat split; vm_compute; reflexivity. Qed.

(** C3, as the code has it.  On the text written for a mapping with plain
    names and absent or non-negative UIDs, the line parser returns the
    mapping, and so does the structured path whenever the YAML engine reads
    the text as the block mapping it denotes. *)
Theorem parsers_agree_on_written_text safe_load (fs : files) path
    (mapping : uid_map) :
  plain_mapping mapping = true ->
  fs !! path = Some (yaml_text mapping) ->
  safe_load (yaml_text mapping) = Some (denoted mapping) ->
  load_container_map (Some safe_load) fs path = load_yaml_simple fs path
  /\ load_yaml_simple fs path = Ok mapping.
Proof.
  intros Hplain Hfile Hdoc.
  rewrite (load_structured_written _ _ _ mapping) by done.
  by rewrite (load_yaml_simple_written _ _ mapping).
Qed.

(** The sample map, with an engine that answers with the document the text
    denotes. *)
Lemma parsers_agree_on_written_text_witness :
  load_container_map (Some (fun _ => Some (denoted Samples.host_map)))
    {[ "container_host_uids.yml" := yaml_text Samples.host_map ]}
    "container_host_uids.yml"
  = load_yaml_simple
      {[ "container_host_uids.yml" := yaml_text Samples.host_map ]}
      "container_host_uids.yml"
  /\ load_yaml_simple
       {[ "container_host_uids.yml" := yaml_text Samples.host_map ]}
       "container_host_uids.yml"
     = Ok Samples.host_map.
Proof.
  apply (parsers_agree_on_written_text
           (fun _ => Some (denoted Samples.host_map))
           {[ "container_host_uids.yml" := yaml_text Samples.host_map ]}
           "container_host_uids.yml" Samples.host_map).
  - vm_compute. reflexivity.
  - apply lookup_singleton_eq.
  - reflexivity.
Defined.

(** C3 as stated fails: on the text written for a container named [a:b] the
    line parser raises [ValueError], which the structured path does not do
    whatever the YAML engine answers. *)
Lemma parsers_disagree_on_colon_name :
  load_yaml_simple {[ "m.yml" := yaml_text {[ "a:b" := Some 5 ]} ]} "m.yml"
  = Err (ValueError "Unsupported value 'b: 5' for container 'a'")
  /\ ~ (exists safe_load,
          load_container_map (Some safe_load)
            {[ "m.yml" := yaml_text {[ "a:b" := Some 5 ]} ]} "m.yml"
          = load_yaml_simple
              {[ "m.yml" := yaml_text {[ "a:b" := Some 5 ]} ]} "m.yml").
Proof.
  assert (load_yaml_simple {[ "m.yml" := yaml_text {[ "a:b" := Some 5 ]} ]} "m.yml"
          = Err (ValueError "Unsupported value 'b: 5' for container 'a'")) as Heq
    by (vm_compute; reflexivity).
  split; [exact Heq|]. rewrite Heq. intros [safe_load Hsame].
  unfold load_container_map in Hsame.
  rewrite lookup_singleton_eq in Hsame. cbn zeta in Hsame.
  replace (read_text (yaml_text {[ "a:b" := Some 5 ]}))
    with (yaml_text {[ "a:b" := Some 5 ]}) in Hsame by (vm_compute; reflexivity).
  rewrite yaml_text_not_blank in Hsame.
  destruct (safe_load (yaml_text {[ "a:b" := Some 5 ]})) as [doc|];
    [|discriminate Hsame].
  destruct (py_truthy doc); [destruct doc as [items|v]|];
    try discriminate Hsame;
    by apply coerce_items_no_value_error in Hsame.
Qed.

End round_trip.

(** * Further properties *)

(** ** ACL Applicator: what a run invokes and counts *)

Section applicator_runs.
Import Applicator.

Lemma main_loop_cons_none h root dry_run name rest st :
  main_loop h root dry_run ((name, None) :: rest) st
  = main_loop h root dry_run rest
      (print ("Skipping " +:+ name +:+ ": no host UID defined") st).
Proof. done. Qed.

Lemma main_loop_cons_missing h root dry_run name uid rest st :
  isdir h (path_join root name) = false ->
  main_loop h root dry_run ((name, Some uid) :: rest) st
  = main_loop h root dry_run rest
      (print ("Skipping " +:+ name +:+ ": directory not found at "
                +:+ path_join root name) st).
Proof. intros Hdir. cbn [main_loop]. by rewrite Hdir. Qed.

Lemma main_loop_cons_grant h root dry_run name uid rest st :
  isdir h (path_join root name) = true ->
  main_loop h root dry_run ((name, Some uid) :: rest) st
  = match apply_setfacl h (path_join root name) uid dry_run st with
    | (st', Ok _) => main_loop h root dry_run rest (count st')
    | (st', Err e) => (st', Err e)
    end.
Proof. intros Hdir. cbn [main_loop]. by rewrite Hdir. Qed.

Lemma main_loop_dry_run_invoked h root items st :
  invoked (main_loop h root true items st).1 = invoked st.
Proof.
  revert st. induction items as [|[name [uid|]] items IH]; intros st; [done|..].
  - destruct (isdir h (path_join root name)) eqn:Hdir.
    + rewrite main_loop_cons_grant, apply_setfacl_dry_run by done.
      by rewrite IH.
    + rewrite main_loop_cons_missing by done. by rewrite IH.
  - rewrite main_loop_cons_none. by rewrite IH.
Qed.

(** X1.  A dry run cannot fail and starts no process: whatever the entries
    and the host, it ends normally, the list of invoked commands is
    untouched, one line is printed per entry, and the tally grows by the
    number of entries that have a UID and an existing directory. *)
Theorem dry_run_invokes_nothing h root items st :
  exists st',
    main_loop h root true items st = (st', Ok tt)
    /\ invoked st' = invoked st
    /\ processed st'
       = processed st + Z.of_nat (length (planned_grants h root items))
    /\ length (printed st') = (length (printed st) + length items)%nat.
Proof.
  revert st. induction items as [|[name [uid|]] items IH]; intros st.
  - exists st. cbn [planned_grants length]. repeat split; [lia..].
  - destruct (isdir h (path_join root name)) eqn:Hdir.
    + rewrite main_loop_cons_grant, apply_setfacl_dry_run by done.
      destruct (IH (count (print
                  ("DRY-RUN " +:+ shlex_join h (setfacl_command (path_join root name) uid)) st)))
        as (st' & -> & Hinv & Hcount & Hprinted).
      exists st'. cbn [planned_grants]. rewrite Hdir, Hinv, Hcount, Hprinted.
      cbn [length count print invoked processed printed]. repeat split; lia.
    + rewrite main_loop_cons_missing by done.
      destruct (IH (print ("Skipping " +:+ name +:+ ": directory not found at "
                             +:+ path_join root name) st))
        as (st' & -> & Hinv & Hcount & Hprinted).
      exists st'. cbn [planned_grants]. rewrite Hdir, Hinv, Hcount, Hprinted.
      cbn [length print invoked processed printed]. repeat split; lia.
  - rewrite main_loop_cons_none.
    destruct (IH (print ("Skipping " +:+ name +:+ ": no host UID defined") st))
      as (st' & -> & Hinv & Hcount & Hprinted).
    exists st'. cbn [planned_grants]. rewrite Hinv, Hcount, Hprinted.
    cbn [length print invoked processed printed]. repeat split; lia.
Qed.

(** X2.  A run that is not a dry run and ends normally has invoked exactly
    the grant commands of the entries with a UID and an existing directory,
    once each and in the order of the entries, every one of them exited with
    0, and the tally grew by their number. *)
Theorem completed_run_accounting h root items st st' :
  main_loop h root false items st = (st', Ok tt) ->
  invoked st' = rev (planned_grants h root items) ++ invoked st
  /\ processed st'
     = processed st + Z.of_nat (length (planned_grants h root items))
  /\ Forall (fun command =>
               exists stderr, subprocess_run h command = Some (0, stderr))
       (planned_grants h root items).
Proof.
  revert st. induction items as [|[name [uid|]] items IH]; intros st.
  - intros [= <-]. cbn [planned_grants length rev app]. repeat split; [lia|done].
  - destruct (isdir h (path_join root name)) eqn:Hdir.
    + rewrite main_loop_cons_grant by done. cbn [planned_grants]. rewrite Hdir.
      unfold apply_setfacl.
      destruct (subprocess_run h (setfacl_command (path_join root name) uid))
        as [[returncode stderr]|] eqn:Hrun; [|done].
      destruct (returncode =? 0) eqn:Hrc; cbn [negb]; [|done].
      apply Z.eqb_eq in Hrc as ->.
      intros (Hinv & Hcount & Hall)%IH. repeat split.
      * rewrite Hinv. cbn [rev count invoke invoked].
        by rewrite <- (assoc_L (++)).
      * rewrite Hcount. cbn [length count invoke processed]. lia.
      * constructor; [by exists stderr|done].
    + rewrite main_loop_cons_missing by done. cbn [planned_grants]. rewrite Hdir.
      by intros (Hinv & Hcount & Hall)%IH.
  - rewrite main_loop_cons_none. cbn [planned_grants].
    by intros (Hinv & Hcount & Hall)%IH.
Qed.

(** The sample map on the sample host, without the entry whose grant
    fails. *)
Lemma completed_run_accounting_witness :
  invoked (main_loop Samples.h "/r" false
             [("app", Some 166535); ("c", Some 4); ("n", None)] initial).1
  = rev (planned_grants Samples.h "/r"
           [("app", Some 166535); ("c", Some 4); ("n", None)]) ++ invoked initial.
Proof.
  destruct (main_loop Samples.h "/r" false
              [("app", Some 166535); ("c", Some 4); ("n", None)] initial)
    as [st' r] eqn:Hrun.
  assert (r = Ok tt) as -> by (vm_compute in Hrun; by injection Hrun as _ <-).
  exact (proj1 (completed_run_accounting Samples.h "/r" _ initial st' Hrun)).
Defined.

(** X3.  Whatever the outcome of a run, the commands it has handed to
    [subprocess.run] are an initial part of the planned grants, in their
    order; and every planned grant is the [setfacl] command of an entry that
    has a UID and whose directory exists.  So no command is ever run for an
    entry without a UID or for a directory that does not exist. *)
Theorem invoked_commands_are_planned h root dry_run items st st' r :
  main_loop h root dry_run items st = (st', r) ->
  (exists n,
     invoked st' = rev (take n (planned_grants h root items)) ++ invoked st)
  /\ Forall (fun command =>
               exists name uid,
                 (name, Some uid) ∈ items
                 /\ isdir h (path_join root name) = true
                 /\ command = setfacl_command (path_join root name) uid)
       (planned_grants h root items).
Proof.
  intros Hrun. split.
  - destruct dry_run.
    { pose proof (main_loop_dry_run_invoked h root items st) as Hinv.
      rewrite Hrun in Hinv. by exists 0%nat. }
    revert st Hrun. induction items as [|[name [uid|]] items IH]; intros st.
    + intros [= <- _]. by exists 0%nat.
    + destruct (isdir h (path_join root name)) eqn:Hdir.
      * rewrite main_loop_cons_grant by done. cbn [planned_grants]. rewrite Hdir.
        unfold apply_setfacl.
        destruct (subprocess_run h (setfacl_command (path_join root name) uid))
          as [[returncode stderr]|] eqn:Hcmd.
        -- destruct (returncode =? 0); cbn [negb].
           ++ intros [n Hn]%IH. exists (S n). rewrite Hn.
              cbn [take rev count invoke invoked].
              by rewrite <- (assoc_L (++)).
           ++ intros [= <- _]. by exists 1%nat.
        -- intros [= <- _]. by exists 1%nat.
      * rewrite main_loop_cons_missing by done. cbn [planned_grants]. rewrite Hdir.
        intros [n Hn]%IH. by exists n.
    + rewrite main_loop_cons_none. cbn [planned_grants].
      intros [n Hn]%IH. by exists n.
  - clear Hrun. induction items as [|[name [uid|]] items IH]; [constructor|..].
    + cbn [planned_grants].
      assert (Forall (fun command =>
                exists name0 uid0,
                  (name0, Some uid0) ∈ (name, Some uid) :: items
                  /\ isdir h (path_join root name0) = true
                  /\ command = setfacl_command (path_join root name0) uid0)
                (planned_grants h root items)) as Hrest.
      { eapply Forall_impl; [exact IH|]. intros command (n0 & u0 & Hin & Hd & ->).
        exists n0, u0. repeat split; [by right|done]. }
      destruct (isdir h (path_join root name)) eqn:Hdir; [|done].
      constructor; [|done]. exists name, uid. repeat split; [by left|done].
    + cbn [planned_grants].
      eapply Forall_impl; [exact IH|]. intros command (n0 & u0 & Hin & Hd & ->).
      exists n0, u0. repeat split; [by right|done].
Qed.

(** The sample map on the sample host: the run stops at [/r/b]. *)
Lemma invoked_commands_are_planned_witness :
  exists n,
    invoked (main_loop Samples.h "/r" false
               (Resolver.sorted_items Samples.host_map) initial).1
    = rev (take n (planned_grants Samples.h "/r"
                     (Resolver.sorted_items Samples.host_map)))
        ++ invoked initial.
Proof.
  destruct (main_loop Samples.h "/r" false
              (Resolver.sorted_items Samples.host_map) initial)
    as [st' r] eqn:Hrun.
  exact (proj1 (invoked_commands_are_planned Samples.h "/r" false _ initial st' r Hrun)).
Defined.

End applicator_runs.

(** ** ACL Applicator: its loader against the Resolver's *)

Section two_loaders.

Lemma load_yaml_simple_loops_agree (mapping : uid_map) lines :
  match Resolver.load_yaml_simple_loop mapping lines with
  | Ok loaded => Applicator.load_yaml_simple_loop mapping lines = Ok loaded
  | Err _ => exists e, Applicator.load_yaml_simple_loop mapping lines = Err e
  end.
Proof.
  revert mapping. induction lines as [|raw_line lines IH]; intros mapping; [done|].
  cbn [Resolver.load_yaml_simple_loop Applicator.load_yaml_simple_loop].
  destruct (Py.is_empty (Py.strip raw_line)
            || Py.startswith (Py.strip raw_line) "#"); [apply IH|].
  destruct (String.eqb (Py.strip raw_line) "{}"
            || String.eqb (Py.strip raw_line) "[]"); [done|].
  destruct (negb (Py.has_char ":" (Py.strip raw_line))); [apply IH|].
  destruct (Py.split_first ":" (Py.strip raw_line)) as [name value].
  destruct (Py.is_empty _ || String.eqb _ "null" || String.eqb _ "~"); [apply IH|].
  destruct (Py.isdigit _); [|by eexists].
  destruct (Py.int_of_str _); [apply IH|by eexists].
Qed.

Lemma load_host_map_agrees (yaml : yaml_engine) (fs : files) path :
  match Resolver.load_container_map yaml fs path with
  | Ok loaded => Applicator.load_host_map yaml fs path = Ok loaded
  | Err _ => exists e, Applicator.load_host_map yaml fs path = Err e
  end.
Proof.
  unfold Resolver.load_container_map, Applicator.load_host_map.
  destruct (fs !! path) as [raw|] eqn:Hfile; [|by eexists]. cbn zeta.
  destruct (Py.is_empty (Py.strip (Py.read_text raw))); [done|].
  destruct yaml as [safe_load|].
  - destruct (safe_load (Py.read_text raw)) as [doc|]; [|by eexists].
    destruct (Resolver.py_truthy doc); [destruct doc as [items|v]|].
    + destruct (Resolver.coerce_items ∅ items); [done|by eexists].
    + by eexists.
    + done.
  - unfold Resolver.load_yaml_simple, Applicator.load_yaml_simple.
    rewrite Hfile. apply load_yaml_simple_loops_agree.
Qed.

(** X4.  The Applicator's copy of the loader accepts exactly the files the
    Resolver's loader accepts, and reads the same mapping from them, with or
    without a YAML engine; the two differ in the text of their errors
    only. *)
Theorem load_host_map_reads_as_load_container_map (yaml : yaml_engine)
    (fs : files) path :
  (forall loaded,
     Applicator.load_host_map yaml fs path = Ok loaded
     <-> Resolver.load_container_map yaml fs path = Ok loaded)
  /\ ((exists e, Applicator.load_host_map yaml fs path = Err e)
      <-> (exists e, Resolver.load_container_map yaml fs path = Err e)).
Proof.
  pose proof (load_host_map_agrees yaml fs path) as Hagree.
  destruct (Resolver.load_container_map yaml fs path) as [loaded|e].
  - rewrite Hagree. split.
    + intros loaded'. split; by intros [= ->].
    + split; intros [e He]; discriminate He.
  - destruct Hagree as [e' ->]. split.
    + intros loaded'. split; intros He; discriminate He.
    + split; intros _; by eexists.
Qed.

End two_loaders.

(** ** Definition Scanner: the names after alias propagation *)

Section alias_names.
Import Scanner.
Implicit Types (mapping scan : gmap string (option string)).

Lemma dom_add_alias mapping alias target :
  dom (add_alias mapping (alias, target)) = {[ alias ]} ∪ dom mapping.
Proof.
  unfold add_alias. case_bool_decide as Hin.
  - set_solver.
  - by rewrite dom_insert_L.
Qed.

Lemma dom_foldl_add_alias pairs mapping :
  dom (foldl add_alias mapping pairs) = list_to_set pairs.*1 ∪ dom mapping.
Proof.
  revert mapping. induction pairs as [|[alias target] pairs IH]; intros mapping.
  - set_solver.
  - cbn [foldl]. rewrite IH, dom_add_alias. set_solver.
Qed.

Lemma foldl_add_alias_present pairs mapping :
  (forall alias, alias ∈ pairs.*1 -> alias ∈ dom mapping) ->
  foldl add_alias mapping pairs = mapping.
Proof.
  induction pairs as [|[alias target] pairs IH]; intros Hall; [done|].
  cbn [foldl]. unfold add_alias at 2.
  rewrite bool_decide_eq_true_2 by (apply Hall; set_solver).
  apply IH. intros a Ha. apply Hall. set_solver.
Qed.

(** X5.  After alias propagation the three alias names are names of the
    mapping whatever the scan found, no other name is added, every name that
    is not an alias keeps its scanned entry, and propagating a second time
    changes nothing. *)
Theorem propagate_aliases_names scan :
  dom (propagate_aliases scan)
  = {[ "database"; "secret/cert"; "secret/core" ]} ∪ dom scan
  /\ (forall name,
        name ∉ [ "database"; "secret/cert"; "secret/core" ] ->
        propagate_aliases scan !! name = scan !! name)
  /\ propagate_aliases (propagate_aliases scan) = propagate_aliases scan.
Proof.
  unfold propagate_aliases. split; [|split].
  - rewrite dom_foldl_add_alias. cbn. set_solver.
  - intros name Hname. by apply foldl_add_alias_other.
  - apply foldl_add_alias_present. intros alias Halias.
    rewrite dom_foldl_add_alias. set_solver.
Qed.

End alias_names.

(** ** Mapping Store: what the line parser can return *)

Section parsed_names.
Import Py Resolver.

Lemma has_char_lstrip_by p c (s : string) :
  has_char c (lstrip_by p s) = true -> has_char c s = true.
Proof.
  induction s as [|a s IH]; [done|]. cbn [lstrip_by has_char].
  destruct (p a); [|done]. intros Hs%IH. by rewrite Hs, orb_true_r.
Qed.

Lemma has_char_rstrip_by p c (s : string) :
  has_char c (rstrip_by p s) = true -> has_char c s = true.
Proof.
  induction s as [|a s IH]; [done|]. cbn [rstrip_by has_char].
  destruct (is_empty (rstrip_by p s) && p a); [done|]. cbn [has_char].
  intros [->|Hs%IH]%orb_true_iff; [done|]. by rewrite Hs, orb_true_r.
Qed.

Lemma has_char_strip c (s : string) :
  has_char c s = false -> has_char c (strip s) = false.
Proof.
  intros Hs. destruct (has_char c (strip s)) eqn:Hstrip; [|done].
  apply has_char_rstrip_by, has_char_lstrip_by in Hstrip. congruence.
Qed.

Lemma has_char_split_first sep c (s : string) :
  has_char c s = false -> has_char c (split_first sep s).1 = false.
Proof.
  induction s as [|a s IH]; [done|]. cbn [has_char split_first].
  intros [Ha Hs]%orb_false_iff. destruct (Ascii.eqb a sep); [done|].
  specialize (IH Hs). destruct (split_first sep s) as [before after].
  cbn [fst has_char] in *. by rewrite Ha, IH.
Qed.

Lemma split_first_no_sep sep (s : string) :
  has_char sep (split_first sep s).1 = false.
Proof.
  induction s as [|a s IH]; [done|]. cbn [split_first].
  destruct (Ascii.eqb a sep) eqn:Ha; [done|].
  destruct (split_first sep s) as [before after]. cbn [fst has_char] in *.
  by rewrite Ha, IH.
Qed.

Lemma rstrip_by_idemp p (s : string) :
  rstrip_by p (rstrip_by p s) = rstrip_by p s.
Proof.
  induction s as [|a s IH]; [done|]. cbn [rstrip_by].
  destruct (is_empty (rstrip_by p s) && p a) eqn:Hcut; [done|].
  cbn [rstrip_by]. by rewrite IH, Hcut.
Qed.

Lemma lstrip_by_head_false p (s : string) :
  match lstrip_by p s with
  | EmptyString => True
  | String a _ => p a = false
  end.
Proof.
  induction s as [|a s IH]; [done|]. cbn [lstrip_by].
  by destruct (p a) eqn:Ha.
Qed.

Lemma lstrip_by_rstrip_by p (s : string) :
  match s with EmptyString => True | String a _ => p a = false end ->
  lstrip_by p (rstrip_by p s) = rstrip_by p s.
Proof.
  destruct s as [|a s]; [done|]. intros Ha. cbn [rstrip_by].
  rewrite Ha, andb_false_r. cbn [lstrip_by]. by rewrite Ha.
Qed.

Lemma strip_by_fixed p (s : string) :
  lstrip_by p (strip_by p s) = strip_by p s
  /\ rstrip_by p (strip_by p s) = strip_by p s.
Proof.
  unfold strip_by. split; [|apply rstrip_by_idemp].
  apply lstrip_by_rstrip_by, lstrip_by_head_false.
Qed.

Lemma strip_by_head p (s : string) :
  match strip_by p s with
  | EmptyString => True
  | String a _ => p a = false
  end.
Proof.
  destruct (strip_by_fixed p s) as [Hl _].
  destruct (strip_by p s) as [|a t]; [done|]. by eapply lstrip_by_fixed.
Qed.

Lemma rstrip_by_app_spaces p (s w : string) :
  all_chars p w = true -> rstrip_by p (s +:+ w) = rstrip_by p s.
Proof.
  intros Hw. induction s as [|a s IH].
  - rewrite app_nil_l. by apply (rstrip_by_app_all p "" w).
  - rewrite app_cons. cbn [rstrip_by]. by rewrite IH.
Qed.

Lemma lstrip_by_all p (w : string) : all_chars p w = true -> lstrip_by p w = "".
Proof.
  induction w as [|a w IH]; [done|]. cbn [all_chars lstrip_by].
  intros [-> Hw]%andb_true_iff. by apply IH.
Qed.

Lemma strip_by_app_spaces p (s w : string) :
  all_chars p w = true -> strip_by p (s +:+ w) = strip_by p s.
Proof.
  intros Hw. unfold strip_by. induction s as [|a s IH].
  - rewrite app_nil_l. by rewrite lstrip_by_all.
  - rewrite app_cons. cbn [lstrip_by]. destruct (p a); [done|].
    rewrite <- app_cons. by apply rstrip_by_app_spaces.
Qed.

(** A line as the iteration over a file gives it: free of carriage returns,
    with at most one line feed, at its end. *)
Lemma readlines_shape (s : string) :
  Forall (fun l =>
            exists body,
              has_char LF body = false /\ has_char CR body = false
              /\ (l = body \/ l = body +:+ NL))
    (readlines s).
Proof.
  assert (forall n s, (String.length s <= n)%nat ->
            Forall (fun l =>
                      exists body,
                        has_char LF body = false /\ has_char CR body = false
                        /\ (l = body \/ l = body +:+ NL))
              (readlines s)) as Hlen; [|by apply (Hlen (String.length s))].
  clear s. induction n as [|n IH]; intros [|c s] Hn; try (constructor; fail).
  { cbn [String.length] in Hn. lia. }
  cbn [String.length] in Hn. cbn [readlines].
  assert (exists body,
            has_char LF body = false /\ has_char CR body = false
            /\ (String LF "" = body \/ String LF "" = body +:+ NL)) as Hnl
    by (exists ""; auto).
  destruct (Ascii.eqb c LF) eqn:Hlf.
  { constructor; [done|]. apply IH. lia. }
  destruct (Ascii.eqb c CR) eqn:Hcr.
  { destruct s as [|d s]; [by repeat constructor|].
    cbn [String.length] in Hn.
    destruct (Ascii.eqb d LF); (constructor; [done|]); apply IH;
      cbn [String.length]; lia. }
  assert (Forall (fun l =>
                    exists body,
                      has_char LF body = false /\ has_char CR body = false
                      /\ (l = body \/ l = body +:+ NL))
            (readlines s)) as Hrest by (apply IH; lia).
  destruct Hrest as [|l ls (body & Hb1 & Hb2 & Hl) Hls].
  - constructor; [|done]. exists (String c ""). cbn [has_char].
    rewrite Hlf, Hcr. auto.
  - constructor; [|done]. exists (String c body). cbn [has_char].
    rewrite Hlf, Hcr, Hb1, Hb2. repeat split; [done..|].
    destruct Hl as [->| ->]; [by left|by right].
Qed.

Lemma strip_line_no_break (l body : string) :
  has_char LF body = false -> has_char CR body = false ->
  l = body \/ l = body +:+ NL ->
  has_char LF (strip l) = false /\ has_char CR (strip l) = false.
Proof.
  intros Hlf Hcr [->| ->].
  - split; by apply has_char_strip.
  - unfold strip. rewrite (strip_by_app_spaces is_space body NL) by done.
    split; by apply has_char_strip.
Qed.

(** The key that the line parser takes from a line is a plain name. *)
Lemma parsed_key_plain (line : string) :
  has_char LF line = false -> has_char CR line = false ->
  lstrip_by is_space line = line -> startswith line "#" = false ->
  plain_name (strip (split_first ":" line).1) = true.
Proof.
  intros Hlf Hcr Hfixed Hhash. unfold plain_name.
  destruct (strip_by_fixed is_space (split_first ":" line).1) as [Hl Hr].
  fold (strip (split_first ":" line).1) in Hl, Hr.
  rewrite Hl, Hr, !String.eqb_refl.
  rewrite (has_char_strip ":") by apply split_first_no_sep.
  rewrite (has_char_strip LF) by (by apply has_char_split_first).
  rewrite (has_char_strip CR) by (by apply has_char_split_first).
  cbn [negb andb].
  destruct line as [|a l]; [done|].
  apply lstrip_by_fixed in Hfixed. cbn [startswith] in Hhash.
  cbn [split_first]. destruct (Ascii.eqb a ":"); [done|].
  destruct (split_first ":" l) as [before after]. cbn [fst].
  unfold strip, strip_by. rewrite lstrip_by_head by done.
  cbn [rstrip_by]. rewrite Hfixed, andb_false_r. cbn [startswith].
  by rewrite Hhash.
Qed.

Lemma of_uint_nonneg (d : uint) : 0 <= Z.of_uint d.
Proof. unfold Z.of_uint. apply N2Z.is_nonneg. Qed.

Lemma load_yaml_simple_loop_plain lines :
  Forall (fun l =>
            exists body,
              has_char LF body = false /\ has_char CR body = false
              /\ (l = body \/ l = body +:+ NL)) lines ->
  forall (mapping loaded : uid_map),
    map_Forall (fun name uid => plain_entry (name, uid) = true) mapping ->
    load_yaml_simple_loop mapping lines = Ok loaded ->
    map_Forall (fun name uid => plain_entry (name, uid) = true) loaded.
Proof.
  induction 1 as [|raw_line lines (body & Hlf & Hcr & Hshape) _ IH];
    intros mapping loaded Hmapping; [by intros [= <-]|].
  cbn [load_yaml_simple_loop].
  destruct (strip_line_no_break _ _ Hlf Hcr Hshape) as [Hslf Hscr].
  destruct (is_empty (strip raw_line) || startswith (strip raw_line) "#")
    eqn:Hskip; [by apply IH|].
  apply orb_false_iff in Hskip as [_ Hhash].
  destruct (String.eqb (strip raw_line) "{}" || String.eqb (strip raw_line) "[]").
  { intros [= <-]. apply map_Forall_empty. }
  destruct (negb (has_char ":" (strip raw_line))); [by apply IH|].
  pose proof (parsed_key_plain (strip raw_line) Hslf Hscr
                (proj1 (strip_by_fixed is_space raw_line)) Hhash) as Hkey.
  destruct (split_first ":" (strip raw_line)) as [name value]. cbn [fst] in Hkey.
  destruct (is_empty _ || String.eqb _ "null" || String.eqb _ "~").
  { apply IH. apply map_Forall_insert_2; [|done].
    unfold plain_entry. cbn [fst snd]. by rewrite Hkey. }
  destruct (isdigit _) eqn:Hdig; [|done].
  destruct (int_of_str_isdigit _ Hdig) as (d & _ & ->).
  apply IH. apply map_Forall_insert_2; [|done].
  unfold plain_entry. cbn [fst snd]. rewrite Hkey. cbn [andb].
  apply Z.leb_le, of_uint_nonneg.
Qed.

Lemma map_Forall_plain_mapping (mapping : uid_map) :
  map_Forall (fun name uid => plain_entry (name, uid) = true) mapping ->
  plain_mapping mapping = true.
Proof.
  intros Hall. unfold plain_mapping. apply forallb_forall.
  intros [name uid] Hin%list_elem_of_In%elem_of_map_to_list. by apply Hall.
Qed.

Lemma load_container_map_plain (fs : files) path (loaded : uid_map) :
  load_container_map None fs path = Ok loaded ->
  plain_mapping loaded = true.
Proof.
  unfold load_container_map, load_yaml_simple.
  destruct (fs !! path) as [raw|]; [|done]. cbn zeta.
  destruct (is_empty (strip (read_text raw))); [by intros [= <-]|].
  intros Hloop. apply map_Forall_plain_mapping.
  eapply load_yaml_simple_loop_plain;
    [apply readlines_shape|apply map_Forall_empty|exact Hloop].
Qed.

(** X6.  Whatever the file holds, a mapping that the loader returns through
    the line parser has plain names only (no colon, no line break, no
    whitespace at either end, no leading [#]) and UIDs that are absent or
    non-negative: such a mapping is one that [write_yaml] can write and the
    loader can read back. *)
Theorem loaded_mapping_is_plain (fs : files) path (loaded : uid_map) :
  load_container_map None fs path = Ok loaded ->
  plain_mapping loaded = true.
Proof. apply load_container_map_plain. Qed.

(** A file with quoted, padded and empty values, a comment and a line
    without a colon. *)
Lemma loaded_mapping_is_plain_witness :
  exists loaded,
    load_container_map None
      {[ "m.yml" := "  web : 1000" +:+ NL +:+ "# note" +:+ NL +:+ "stray"
                      +:+ NL +:+ "secret/cert:" +:+ NL +:+ "db: ~" +:+ NL ]}
      "m.yml" = Ok loaded
    /\ plain_mapping loaded = true.
Proof.
  eexists. split; [vm_compute; reflexivity|].
  apply (loaded_mapping_is_plain
           {[ "m.yml" := "  web : 1000" +:+ NL +:+ "# note" +:+ NL +:+ "stray"
                           +:+ NL +:+ "secret/cert:" +:+ NL +:+ "db: ~" +:+ NL ]}
           "m.yml").
  vm_compute. reflexivity.
Defined.

End parsed_names.

(** ** Subuid Resolver: the file it writes *)

Section resolver_output.
Import Py Resolver.

Lemma plain_mapping_map_Forall (mapping : uid_map) :
  plain_mapping mapping = true ->
  map_Forall (fun name uid => plain_entry (name, uid) = true) mapping.
Proof.
  unfold plain_mapping. rewrite forallb_forall. intros Hall name uid Hin.
  apply Hall, list_elem_of_In. by apply elem_of_map_to_list.
Qed.

Lemma compute_host_uids_plain getuid (container_map : uid_map) subuid_base :
  plain_mapping container_map = true ->
  (if getuid =? 0 then 0 else 1) <= subuid_base ->
  plain_mapping (compute_host_uids getuid container_map subuid_base) = true.
Proof.
  intros Hplain%plain_mapping_map_Forall Hbase.
  rewrite compute_host_uids_fmap. apply map_Forall_plain_mapping.
  apply map_Forall_fmap. eapply map_Forall_impl; [exact Hplain|].
  intros name [u|]; unfold plain_entry; cbn [fst snd host_uid compose];
    [|done].
  intros [-> Hu%Z.leb_le]%andb_true_iff. cbn [andb].
  destruct (getuid =? 0); cbn [negb]; apply Z.leb_le; lia.
Qed.

Lemma load_fallback_written (fs : files) path (mapping : uid_map) :
  plain_mapping mapping = true ->
  fs !! path = Some (yaml_text mapping) ->
  load_container_map None fs path = Ok mapping.
Proof.
  intros Hplain Hfile. unfold load_container_map. rewrite Hfile. cbn zeta.
  rewrite read_text_yaml_text by done. rewrite yaml_text_not_blank.
  by apply load_yaml_simple_written.
Qed.

(** X7.  The hand-over from the Resolver to the Applicator, without a YAML
    engine: when the Resolver's [main] could load its input and found a
    subuid base of at least 1 (at least 0 for the privileged caller), it ends
    normally, and the file it wrote is read back as exactly the host mapping
    it computed, by its own loader and by the Applicator's. *)
Theorem resolver_output_is_read_back getuid username (fs : files)
    map_path subuid_file output_path (container_map : uid_map) subuid_base :
  load_container_map None fs map_path = Ok container_map ->
  get_current_user_subuid username fs subuid_file = Ok subuid_base ->
  (if getuid =? 0 then 0 else 1) <= subuid_base ->
  (exists line,
     (main None getuid username fs map_path subuid_file output_path).2 = Ok line)
  /\ load_container_map None
       (main None getuid username fs map_path subuid_file output_path).1
       output_path
     = Ok (compute_host_uids getuid container_map subuid_base)
  /\ Applicator.load_host_map None
       (main None getuid username fs map_path subuid_file output_path).1
       output_path
     = Ok (compute_host_uids getuid container_map subuid_base).
Proof.
  intros Hload Hbase Hbound. unfold main. rewrite Hload, Hbase. cbn [fst snd].
  assert (load_container_map None
            (write_yaml (compute_host_uids getuid container_map subuid_base)
               output_path fs) output_path
          = Ok (compute_host_uids getuid container_map subuid_base)) as Hback.
  { apply load_fallback_written; [|apply lookup_insert_eq].
    apply compute_host_uids_plain; [|done]. by eapply load_container_map_plain. }
  split; [by eexists|]. split; [done|].
  pose proof (load_host_map_agrees None
                (write_yaml (compute_host_uids getuid container_map subuid_base)
                   output_path fs) output_path) as Hagree.
  by rewrite Hback in Hagree.
Qed.

(** An unprivileged run on a two-entry map and a one-record registry. *)
Lemma resolver_output_is_read_back_witness :
  Applicator.load_host_map None
    (main None 1000 "alice"
       (<[ "/w/container_uids.yml" := "app: 1000" +:+ NL +:+ "db: null" +:+ NL ]>
          {[ "/etc/subuid" := "alice:165536:65536" +:+ NL ]})
       "/w/container_uids.yml" "/etc/subuid" "/w/container_host_uids.yml").1
    "/w/container_host_uids.yml"
  = Ok (compute_host_uids 1000
          (<[ "app" := Some 1000 ]> {[ "db" := None ]}) 165536).
Proof.
  refine (proj2 (proj2 (resolver_output_is_read_back 1000 "alice"
           (<[ "/w/container_uids.yml" := "app: 1000" +:+ NL +:+ "db: null" +:+ NL ]>
              {[ "/etc/subuid" := "alice:165536:65536" +:+ NL ]})
           "/w/container_uids.yml" "/etc/subuid" "/w/container_host_uids.yml"
           (<[ "app" := Some 1000 ]> {[ "db" := None ]}) 165536 _ _ _))).
  - vm_compute. reflexivity.
  - vm_compute. reflexivity.
  - vm_compute. discriminate.
Defined.

End resolver_output.

(** ** From the Scanner's file to the Resolver's mapping *)

Section scanner_output.
Import Py.

Lemma rendered_digits (v : string) : isdigit v = true -> Resolver.rendered_value v.
Proof.
  intros Hdig. pose proof Hdig as [Hne Hall]%andb_true_iff. repeat split.
  - by apply negb_true_iff.
  - by apply isdigit_no_space.
  - revert Hall. apply all_chars_impl. intros c Hc.
    by rewrite is_digit_not_quote.
  - by apply (all_chars_has_char is_digit).
  - by apply (all_chars_has_char is_digit).
Qed.

Lemma load_yaml_simple_loop_scanned (mapping : uid_map) item rest :
  ScannerMain.plain_scan_entry item = true ->
  Resolver.load_yaml_simple_loop mapping ((Scanner.render_entry item +:+ NL) :: rest)
  = Resolver.load_yaml_simple_loop
      (<[item.1 := ScannerMain.uid_number item.2]> mapping) rest.
Proof.
  destruct item as [name [uid|]];
    unfold ScannerMain.plain_scan_entry, Scanner.render_entry; cbn [fst snd];
    intros [Hname Huid]%andb_true_iff; rewrite !app_assoc.
  - rewrite load_yaml_simple_loop_entry by auto using rendered_digits.
    rewrite (isdigit_not_null _ Huid), Huid. cbn [ScannerMain.uid_number].
    by destruct (int_of_str_isdigit _ Huid) as (d & _ & ->).
  - by rewrite load_yaml_simple_loop_entry by auto using rendered_null.
Qed.

Lemma load_yaml_simple_loop_scanned_items (mapping : uid_map) items :
  Forall (fun item => ScannerMain.plain_scan_entry item = true) items ->
  Resolver.load_yaml_simple_loop mapping
    ((fun l => l +:+ NL) <$> (Scanner.render_entry <$> items))
  = Ok (foldl (fun (m : uid_map) item => <[item.1 := item.2]> m) mapping
          (prod_map id ScannerMain.uid_number <$> items)).
Proof.
  intros Hall. revert mapping.
  induction Hall as [|item items Hitem _ IH]; intros mapping; [done|].
  cbn [fmap list_fmap foldl].
  fold (@fmap list _ _ _ Scanner.render_entry items).
  fold (@fmap list _ _ _ (fun l => l +:+ NL) (Scanner.render_entry <$> items)).
  fold (@fmap list _ _ _ (prod_map id ScannerMain.uid_number) items).
  by rewrite load_yaml_simple_loop_scanned, IH.
Qed.

Lemma scanned_entry_no_break item :
  ScannerMain.plain_scan_entry item = true ->
  has_char LF (Scanner.render_entry item) = false
  /\ has_char CR (Scanner.render_entry item) = false.
Proof.
  destruct item as [name uid].
  unfold ScannerMain.plain_scan_entry, Scanner.render_entry. cbn [fst snd].
  intros [(_ & Hlf & Hcr & _)%plain_name_facts Huid]%andb_true_iff.
  assert (Resolver.rendered_value match uid with None => "null" | Some uid => uid end)
    as (_ & _ & _ & Hvlf & Hvcr).
  { destruct uid as [uid|]; [by apply rendered_digits|apply rendered_null]. }
  by rewrite !has_char_app, Hlf, Hcr, Hvlf, Hvcr.
Qed.

Lemma plain_scan_sorted (mapping : gmap string (option string)) :
  ScannerMain.plain_scan mapping = true ->
  Forall (fun item => ScannerMain.plain_scan_entry item = true)
    (Resolver.sorted_items mapping).
Proof.
  unfold ScannerMain.plain_scan. rewrite forallb_forall. intros Hall.
  rewrite sorted_items_perm. apply Forall_forall. intros item Hin.
  apply Hall. by apply list_elem_of_In.
Qed.

Lemma sorted_items_fmap_to_map {V W} (f : V -> W) (mapping : gmap string V) :
  foldl (fun (m : gmap string W) item => <[item.1 := item.2]> m) ∅
    (prod_map id f <$> Resolver.sorted_items mapping)
  = f <$> mapping.
Proof.
  assert ((prod_map id f <$> Resolver.sorted_items mapping).*1
          = (Resolver.sorted_items mapping).*1) as Hkeys.
  { induction (Resolver.sorted_items mapping) as [|[k v] l IH]; [done|].
    cbn [fmap list_fmap prod_map fst] in *. by rewrite IH. }
  assert (NoDup (Resolver.sorted_items mapping).*1) as Hnd.
  { rewrite sorted_items_perm. apply NoDup_fst_map_to_list. }
  rewrite foldl_insert_union by (by rewrite Hkeys).
  rewrite (right_id_L ∅ (∪)), list_to_map_fmap.
  rewrite (list_to_map_proper _ (map_to_list mapping) Hnd (sorted_items_perm _)).
  by rewrite list_to_map_to_list.
Qed.

(** The line parser on the text the Scanner writes. *)
Lemma load_scanned_text (mapping : gmap string (option string)) :
  ScannerMain.plain_scan mapping = true ->
  read_text (Scanner.yaml_text mapping) = Scanner.yaml_text mapping
  /\ is_empty (strip (Scanner.yaml_text mapping)) = false
  /\ Resolver.load_yaml_simple_loop ∅ (readlines (Scanner.yaml_text mapping))
     = Ok (ScannerMain.uid_number <$> mapping).
Proof.
  intros Hplain%plain_scan_sorted. unfold Scanner.yaml_text.
  destruct (Resolver.sorted_items mapping) as [|item items] eqn:Hitems.
  - assert (mapping = ∅) as ->.
    { apply map_to_list_empty_iff, Permutation_nil_r.
      by rewrite <- sorted_items_perm, Hitems. }
    by rewrite fmap_empty.
  - cbn zeta.
    assert (match Scanner.render_entry <$> item :: items with
            | [] => ["{}"]
            | _ :: _ => Scanner.render_entry <$> item :: items
            end = Scanner.render_entry <$> item :: items) as -> by done.
    change (Scanner.render_entry <$> item :: items)
      with (Scanner.render_entry item :: (Scanner.render_entry <$> items)).
    rewrite join_lines.
    change (Scanner.render_entry item :: (Scanner.render_entry <$> items))
      with (Scanner.render_entry <$> item :: items).
    assert (Forall (fun l => has_char LF l = false /\ has_char CR l = false)
              (Scanner.render_entry <$> item :: items)) as Hbreaks.
    { apply Forall_fmap. eapply Forall_impl; [exact Hplain|].
      intros entry. apply scanned_entry_no_break. }
    split; [|split].
    + apply read_text_no_cr. clear Hitems.
      induction Hbreaks as [|l ls [_ Hcr] _ IH]; [done|].
      cbn [foldr]. by rewrite !has_char_app, Hcr, IH.
    + apply (strip_keeps ":"); [|done]. cbn [fmap list_fmap foldr].
      unfold Scanner.render_entry at 1. rewrite !has_char_app.
      cbn [has_char Ascii.eqb]. by rewrite !orb_true_r.
    + rewrite readlines_lines by done.
      rewrite load_yaml_simple_loop_scanned_items by done.
      by rewrite <- Hitems, sorted_items_fmap_to_map.
Qed.

(** X8.  Hand-over from the Scanner to the Resolver without a YAML engine:
    a scan result with plain names whose UIDs are absent or strings of
    digits, once written by the Scanner's [write_yaml], is loaded by the
    Resolver with the same names, absent UIDs absent, and every string of
    digits as the number it denotes (leading zeros dropped). *)
Theorem scanner_output_is_loaded (fs : files) output_path
    (mapping : gmap string (option string)) :
  ScannerMain.plain_scan mapping = true ->
  Resolver.load_container_map None
    (Scanner.write_yaml mapping output_path fs) output_path
  = Ok (ScannerMain.uid_number <$> mapping)
  /\ (forall name digits,
        mapping !! name = Some (Some digits) ->
        exists d,
          NilEmpty.uint_of_string digits = Some d
          /\ (ScannerMain.uid_number <$> mapping) !! name
             = Some (Some (Z.of_uint d))).
Proof.
  intros Hplain. split.
  - destruct (load_scanned_text mapping Hplain) as (Hread & Hblank & Hloop).
    unfold Resolver.load_container_map, Scanner.write_yaml.
    rewrite lookup_insert_eq. cbn zeta. rewrite Hread, Hblank.
    unfold Resolver.load_yaml_simple. by rewrite lookup_insert_eq.
  - intros name digits Hname.
    assert (isdigit digits = true) as Hdig.
    { unfold ScannerMain.plain_scan in Hplain.
      rewrite forallb_forall in Hplain.
      specialize (Hplain (name, Some digits)).
      apply andb_true_iff in Hplain as [_ Hd]; [done|].
      apply list_elem_of_In. by apply elem_of_map_to_list. }
    destruct (int_of_str_isdigit _ Hdig) as (d & Hd & Hint).
    exists d. split; [done|]. rewrite lookup_fmap, Hname. cbn.
    by rewrite Hint.
Qed.

(** A scan with an alias, an absent UID and a UID with leading zeros. *)
Lemma scanner_output_is_loaded_witness :
  Resolver.load_container_map None
    (Scanner.write_yaml
       (<[ "app" := Some "2000" ]> (<[ "secret/core" := Some "0010" ]>
          {[ "db" := None ]}))
       "/w/container_uids.yml" ∅)
    "/w/container_uids.yml"
  = Ok (ScannerMain.uid_number
          <$> (<[ "app" := Some "2000" ]> (<[ "secret/core" := Some "0010" ]>
                 {[ "db" := None ]}))).
Proof.
  refine (proj1 (scanner_output_is_loaded ∅ "/w/container_uids.yml"
                   (<[ "app" := Some "2000" ]> (<[ "secret/core" := Some "0010" ]>
                      {[ "db" := None ]})) _)).
  vm_compute. reflexivity.
Defined.

End scanner_output.

(** ** Definition Scanner: the walk over the container folders *)

Section container_folders.
Import Py ScannerMain.

Lemma length_app (x s : string) :
  String.length (x +:+ s) = (String.length x + String.length s)%nat.
Proof. induction x as [|a x IH]; [done|]. rewrite app_cons. cbn. by rewrite IH. Qed.

Lemma endswith_app (x s : string) : endswith (x +:+ s) s = true.
Proof.
  induction x as [|a x IH].
  - rewrite app_nil_l. destruct s; cbn [endswith]; by rewrite String.eqb_refl.
  - rewrite app_cons. cbn [endswith]. by rewrite IH, orb_true_r.
Qed.

Lemma endswith_app_long (x s p : string) :
  (String.length p <= String.length s)%nat ->
  endswith (x +:+ s) p = endswith s p.
Proof.
  intros Hlen. induction x as [|a x IH]; [done|].
  rewrite app_cons. cbn [endswith]. rewrite IH.
  destruct (String.eqb_spec (String a (x +:+ s)) p) as [<-|_]; [|done].
  cbn [String.length] in Hlen. rewrite length_app in Hlen. lia.
Qed.

Lemma path_join_relative (d c : string) :
  startswith c "/" = false -> exists x, Applicator.path_join d c = x +:+ c.
Proof.
  intros Hrel. unfold Applicator.path_join. rewrite Hrel.
  destruct (is_empty d || endswith d "/").
  - by exists d.
  - exists (d +:+ "/"). by rewrite app_assoc.
Qed.

Lemma dockerfile_paths (d : string) :
  endswith (Applicator.path_join d "Dockerfile") "Dockerfile" = true
  /\ endswith (Applicator.path_join d "Dockerfile.base") "Dockerfile" = false
  /\ Applicator.path_join d "Dockerfile" ≠ Applicator.path_join d "Dockerfile.base".
Proof.
  destruct (path_join_relative d "Dockerfile" eq_refl) as [x Hx].
  destruct (path_join_relative d "Dockerfile.base" eq_refl) as [y Hy].
  assert (endswith (Applicator.path_join d "Dockerfile") "Dockerfile" = true) as H1
    by (rewrite Hx; apply endswith_app).
  assert (endswith (Applicator.path_join d "Dockerfile.base") "Dockerfile" = false)
    as H2 by (rewrite Hy; by rewrite endswith_app_long by (cbn; lia)).
  repeat split; [done..|]. intros Heq. rewrite Heq in H1. congruence.
Qed.

(** The UID that the scan of a build definition gives. *)
Lemma find_uid_in_file_content shlex_split (fs : files) path content :
  fs !! path = Some content ->
  Scanner.find_uid_in_file shlex_split fs path
  = Ok (Scanner.find_uid_in_lines shlex_split
          (Scanner.read_effective_loop "" (readlines content))).
Proof.
  intros Hfile. unfold Scanner.find_uid_in_file, Scanner.read_effective_lines.
  by rewrite Hfile.
Qed.

Lemma isfile_Some (fs : files) path content :
  fs !! path = Some content -> isfile fs path = true.
Proof. intros Hfile. unfold isfile. rewrite Hfile. by apply bool_decide_eq_true_2. Qed.

Lemma isfile_None (fs : files) path : fs !! path = None -> isfile fs path = false.
Proof.
  intros Hfile. unfold isfile. rewrite Hfile.
  apply bool_decide_eq_false_2. by intros [??].
Qed.

(** What the loop body decides for a folder. *)
Lemma scan_entry_folder shlex_split (fs : files) root name :
  scan_entry shlex_split fs root {| entry_name := name; entry_is_dir := true |}
  = match
      fs !! Applicator.path_join (Applicator.path_join root name) "Dockerfile",
      fs !! Applicator.path_join (Applicator.path_join root name) "Dockerfile.base"
    with
    | None, None => None
    | Some primary, None =>
        Some (Ok (Scanner.find_uid_in_lines shlex_split
                    (Scanner.read_effective_loop "" (readlines primary))))
    | None, Some base =>
        Some (Ok (Scanner.find_uid_in_lines shlex_split
                    (Scanner.read_effective_loop "" (readlines base))))
    | Some primary, Some base =>
        Some (Ok match Scanner.find_uid_in_lines shlex_split
                         (Scanner.read_effective_loop "" (readlines primary)) with
                 | Some uid => Some uid
                 | None =>
                     Scanner.find_uid_in_lines shlex_split
                       (Scanner.read_effective_loop "" (readlines base))
                 end)
    end.
Proof.
  unfold scan_entry, dockerfiles_of. cbn [entry_is_dir entry_name negb].
  set (d := Applicator.path_join root name).
  destruct (dockerfile_paths d) as (Hprimary & Hbase & _).
  cbn [fmap list_fmap List.filter].
  destruct (fs !! Applicator.path_join d "Dockerfile") as [primary|] eqn:H1;
    destruct (fs !! Applicator.path_join d "Dockerfile.base") as [base|] eqn:H2;
    rewrite ?(isfile_Some _ _ _ H1), ?(isfile_Some _ _ _ H2),
      ?(isfile_None _ _ H1), ?(isfile_None _ _ H2);
    unfold sort_dockerfiles; cbn [List.filter]; rewrite ?Hprimary, ?Hbase;
    cbn [negb app first_uid];
    rewrite ?(find_uid_in_file_content _ _ _ _ H1),
      ?(find_uid_in_file_content _ _ _ _ H2);
    by repeat case_match.
Qed.

Lemma scan_entry_not_folder shlex_split (fs : files) root name :
  scan_entry shlex_split fs root {| entry_name := name; entry_is_dir := false |}
  = None.
Proof. done. Qed.

Lemma scan_entry_never_fails shlex_split (fs : files) root entry e :
  scan_entry shlex_split fs root entry ≠ Some (Err e).
Proof.
  destruct entry as [name [|]]; [|done]. rewrite scan_entry_folder.
  by repeat case_match.
Qed.

(** The loop passes over the entries whose name is not [name]. *)
Lemma find_container_uids_loop_other shlex_split (fs : files) root entries
    (containers scanned : gmap string (option string)) name :
  name ∉ entry_name <$> entries ->
  find_container_uids_loop shlex_split fs root entries containers = Ok scanned ->
  scanned !! name = containers !! name.
Proof.
  revert containers. induction entries as [|entry entries IH]; intros containers.
  - by intros _ [= <-].
  - cbn [fmap list_fmap]. intros [Hne Hnot]%not_elem_of_cons.
    cbn [find_container_uids_loop].
    destruct (scan_entry shlex_split fs root entry) as [[uid|e]|]; [|done|].
    + intros Hloop%IH; [|done]. by rewrite Hloop, lookup_insert_ne.
    + by apply IH.
Qed.

Lemma find_container_uids_loop_total shlex_split (fs : files) root entries
    (containers : gmap string (option string)) :
  exists scanned,
    find_container_uids_loop shlex_split fs root entries containers = Ok scanned.
Proof.
  revert containers. induction entries as [|entry entries IH]; intros containers.
  - by eexists.
  - cbn [find_container_uids_loop].
    destruct (scan_entry shlex_split fs root entry) as [[uid|e]|] eqn:Hentry.
    + apply IH.
    + by apply scan_entry_never_fails in Hentry.
    + apply IH.
Qed.

Lemma find_container_uids_loop_entry shlex_split (fs : files) root entries
    (containers scanned : gmap string (option string)) name is_dir :
  NoDup (entry_name <$> entries) ->
  {| entry_name := name; entry_is_dir := is_dir |} ∈ entries ->
  find_container_uids_loop shlex_split fs root entries containers = Ok scanned ->
  scanned !! name
  = match scan_entry shlex_split fs root
            {| entry_name := name; entry_is_dir := is_dir |} with
    | Some (Ok uid) => Some uid
    | _ => containers !! name
    end.
Proof.
  revert containers. induction entries as [|entry entries IH]; intros containers.
  - intros _ Hin. by apply elem_of_nil in Hin.
  - cbn [fmap list_fmap]. intros [Hfresh Hnd]%NoDup_cons Hin.
    cbn [find_container_uids_loop]. apply elem_of_cons in Hin as [<-|Hin].
    + cbn [entry_name] in *.
      destruct (scan_entry shlex_split fs root _) as [[uid|e]|]; [|done|].
      * intros Hloop. rewrite (find_container_uids_loop_other _ _ _ _ _ _ _
                                 Hfresh Hloop).
        apply lookup_insert_eq.
      * by apply find_container_uids_loop_other.
    + assert (entry_name entry ≠ name) as Hne.
      { intros Heq. apply Hfresh. rewrite Heq.
        apply (list_elem_of_fmap_2 entry_name) in Hin. done. }
      destruct (scan_entry shlex_split fs root entry) as [[uid|e]|]; [|done|].
      * intros Hloop. rewrite (IH _ Hnd Hin Hloop).
        by rewrite lookup_insert_ne.
      * by apply IH.
Qed.

Lemma sorted_listing_perm (listing : list dir_entry) :
  merge_sort (fun a b => String.le (entry_name a) (entry_name b)) listing
  ≡ₚ listing.
Proof. apply merge_sort_Permutation. Qed.

(** X9.  When the names that [os.scandir] lists are distinct, the walk over
    the container folders cannot fail, and its result has an entry exactly
    for the folders that hold a [Dockerfile] or a [Dockerfile.base]: the UID
    of the [Dockerfile] when it has one, otherwise the UID of the
    [Dockerfile.base], otherwise [None].  A folder without a build
    definition, a file, and a name that is not listed are no names of the
    result. *)
Theorem find_container_uids_folders shlex_split (fs : files) root listing :
  NoDup (entry_name <$> listing) ->
  exists scanned,
    find_container_uids shlex_split fs root listing = Ok scanned
    /\ (forall name,
          {| entry_name := name; entry_is_dir := true |} ∈ listing ->
          scanned !! name
          = match
              fs !! Applicator.path_join (Applicator.path_join root name)
                      "Dockerfile",
              fs !! Applicator.path_join (Applicator.path_join root name)
                      "Dockerfile.base"
            with
            | None, None => None
            | Some primary, None =>
                Some (Scanner.find_uid_in_lines shlex_split
                        (Scanner.read_effective_loop "" (readlines primary)))
            | None, Some base =>
                Some (Scanner.find_uid_in_lines shlex_split
                        (Scanner.read_effective_loop "" (readlines base)))
            | Some primary, Some base =>
                Some match Scanner.find_uid_in_lines shlex_split
                             (Scanner.read_effective_loop "" (readlines primary))
                     with
                     | Some uid => Some uid
                     | None =>
                         Scanner.find_uid_in_lines shlex_split
                           (Scanner.read_effective_loop "" (readlines base))
                     end
            end)
    /\ (forall name,
          {| entry_name := name; entry_is_dir := true |} ∉ listing ->
          scanned !! name = None).
Proof.
  intros Hnd. unfold find_container_uids.
  set (entries := merge_sort _ listing).
  assert (NoDup (entry_name <$> entries)) as Hnd'
    by (unfold entries; by rewrite sorted_listing_perm).
  destruct (find_container_uids_loop_total shlex_split fs root entries ∅)
    as [scanned Hrun].
  exists scanned. split; [done|]. split.
  - intros name Hin.
    assert ({| entry_name := name; entry_is_dir := true |} ∈ entries) as Hin'
      by (unfold entries; by rewrite sorted_listing_perm).
    rewrite (find_container_uids_loop_entry _ _ _ _ _ _ _ _ Hnd' Hin' Hrun).
    rewrite scan_entry_folder, lookup_empty.
    by destruct (fs !! Applicator.path_join _ "Dockerfile"),
         (fs !! Applicator.path_join _ "Dockerfile.base").
  - intros name Hnot.
    destruct (decide (name ∈ entry_name <$> entries)) as [Hin|Hout].
    + apply list_elem_of_fmap in Hin as ([name' is_dir] & -> & Hin).
      cbn [entry_name] in *.
      rewrite (find_container_uids_loop_entry _ _ _ _ _ _ _ _ Hnd' Hin Hrun).
      destruct is_dir.
      * exfalso. apply Hnot. revert Hin. unfold entries.
        by rewrite sorted_listing_perm.
      * by rewrite scan_entry_not_folder, lookup_empty.
    + by rewrite (find_container_uids_loop_other _ _ _ _ _ _ _ Hout Hrun),
        lookup_empty.
Qed.

(** The sample tree: [db] takes the UID of its base variant. *)
Lemma find_container_uids_folders_witness :
  exists scanned,
    find_container_uids (fun _ => None) Samples.scan_fs "/r" Samples.scan_listing
    = Ok scanned
    /\ scanned !! "db" = Some (Some "70")
    /\ scanned !! "empty" = None.
Proof.
  destruct (find_container_uids_folders (fun _ => None) Samples.scan_fs "/r"
              Samples.scan_listing) as (scanned & Hrun & Hin & Hout).
  - apply (bool_decide_unpack _). vm_compute. exact I.
  - exists scanned. split; [exact Hrun|]. split.
    + rewrite (Hin "db"); [vm_compute; reflexivity|].
      apply elem_of_cons. by left.
    + rewrite (Hin "empty"); [vm_compute; reflexivity|].
      do 2 (apply elem_of_cons; right). apply elem_of_cons. by left.
Defined.

End container_folders.

(** ** Definition Scanner: a whole run, and the Resolver's reading of it *)

Section scanner_run.
Import Py Scanner ScannerMain.

Lemma find_uid_in_lines_digits shlex_split lines uid :
  find_uid_in_lines shlex_split lines = Some uid -> isdigit uid = true.
Proof.
  intros (pre & line & post & _ & _ & Hline)%find_uid_in_lines_first.
  by apply extract_uid_from_tokens_first in Hline
    as (_ & _ & _ & _ & _ & Hdigit & _).
Qed.

Lemma first_uid_digits shlex_split (fs : files) dockerfiles uid :
  first_uid shlex_split fs dockerfiles = Ok (Some uid) -> isdigit uid = true.
Proof.
  induction dockerfiles as [|dockerfile rest IH]; [done|]. cbn [first_uid].
  unfold find_uid_in_file, read_effective_lines.
  destruct (fs !! dockerfile) as [content|]; [|done].
  destruct (find_uid_in_lines shlex_split _) as [found|] eqn:Hfound; [|done].
  intros [= <-]. by eapply find_uid_in_lines_digits.
Qed.

Lemma scan_entry_digits shlex_split (fs : files) root entry uid :
  scan_entry shlex_split fs root entry = Some (Ok (Some uid)) ->
  isdigit uid = true.
Proof.
  unfold scan_entry. destruct (entry_is_dir entry); [|done]. cbn [negb].
  destruct (dockerfiles_of fs _); [done|].
  intros [= Hfirst]. by eapply first_uid_digits.
Qed.

Lemma scan_entry_is_dir shlex_split (fs : files) root entry r :
  scan_entry shlex_split fs root entry = Some r -> entry_is_dir entry = true.
Proof. unfold scan_entry. by destruct (entry_is_dir entry). Qed.

Lemma find_container_uids_loop_plain shlex_split (fs : files) root entries
    (containers scanned : gmap string (option string)) :
  Forall (fun entry => entry_is_dir entry = true ->
                       Resolver.plain_name (entry_name entry) = true) entries ->
  map_Forall (fun name uid => plain_scan_entry (name, uid) = true) containers ->
  find_container_uids_loop shlex_split fs root entries containers = Ok scanned ->
  map_Forall (fun name uid => plain_scan_entry (name, uid) = true) scanned.
Proof.
  intros Hnames. revert containers.
  induction Hnames as [|entry entries Hname _ IH]; intros containers Hall.
  - by intros [= <-].
  - cbn [find_container_uids_loop].
    destruct (scan_entry shlex_split fs root entry) as [[uid|e]|] eqn:Hentry;
      [|done|by apply IH].
    apply IH. apply map_Forall_insert_2; [|done].
    unfold plain_scan_entry. cbn [fst snd].
    rewrite Hname by (by eapply scan_entry_is_dir). cbn [andb].
    destruct uid as [uid|]; [|done].
    by apply scan_entry_digits in Hentry.
Qed.

Lemma add_alias_plain (mapping : gmap string (option string)) alias target :
  Resolver.plain_name alias = true ->
  map_Forall (fun name uid => plain_scan_entry (name, uid) = true) mapping ->
  map_Forall (fun name uid => plain_scan_entry (name, uid) = true)
    (add_alias mapping (alias, target)).
Proof.
  intros Halias Hall. unfold add_alias. case_bool_decide; [done|].
  apply map_Forall_insert_2; [|done].
  unfold plain_scan_entry, dict_get. cbn [fst snd]. rewrite Halias. cbn [andb].
  destruct (mapping !! target) as [[uid|]|] eqn:Htarget; [|done..].
  apply Hall in Htarget. unfold plain_scan_entry in Htarget.
  by apply andb_true_iff in Htarget as [_ Hdigit].
Qed.

Lemma propagate_aliases_plain (mapping : gmap string (option string)) :
  map_Forall (fun name uid => plain_scan_entry (name, uid) = true) mapping ->
  map_Forall (fun name uid => plain_scan_entry (name, uid) = true)
    (propagate_aliases mapping).
Proof.
  intros Hall. unfold propagate_aliases, alias_pairs. cbn [foldl].
  by repeat apply add_alias_plain.
Qed.

Lemma map_Forall_plain_scan (mapping : gmap string (option string)) :
  map_Forall (fun name uid => plain_scan_entry (name, uid) = true) mapping ->
  plain_scan mapping = true.
Proof.
  intros Hall. unfold plain_scan. apply forallb_forall.
  intros [name uid] Hin%list_elem_of_In%elem_of_map_to_list. by apply Hall.
Qed.

(** X10.  A whole run of the Scanner, and what the Resolver then reads.
    When the listed folders have plain names, the walk over the folders
    cannot fail, and the run writes the mapping that alias propagation makes
    of the walk's result, and reports its size; every UID of that mapping,
    for a folder or for an alias, is a non-empty string of digits, whatever
    [shlex.split] answers; and the file written is loaded by the Resolver,
    without a YAML engine, with the same names and each UID as the number
    its digits denote. *)
Theorem scanner_run_is_loaded shlex_split (fs : files) root listing output_path :
  Forall (fun entry => entry_is_dir entry = true ->
                       Resolver.plain_name (entry_name entry) = true) listing ->
  exists scanned,
    find_container_uids shlex_split fs root listing = Ok scanned
    /\ main shlex_split fs root (Some listing) output_path
       = (write_yaml (propagate_aliases scanned) output_path fs,
          Ok ("Wrote "
                +:+ str_of_int (Z.of_nat (size (propagate_aliases scanned)))
                +:+ " containers to " +:+ output_path))
    /\ (forall name uid,
          propagate_aliases scanned !! name = Some (Some uid) ->
          isdigit uid = true
          /\ exists d,
               NilEmpty.uint_of_string uid = Some d
               /\ (uid_number <$> propagate_aliases scanned) !! name
                  = Some (Some (Z.of_uint d)))
    /\ Resolver.load_container_map None
         (write_yaml (propagate_aliases scanned) output_path fs) output_path
       = Ok (uid_number <$> propagate_aliases scanned).
Proof.
  intros Hnames. unfold main, find_container_uids.
  set (entries := merge_sort _ listing).
  destruct (find_container_uids_loop_total shlex_split fs root entries ∅)
    as [scanned Hrun].
  rewrite Hrun. exists scanned.
  assert (map_Forall (fun name uid => plain_scan_entry (name, uid) = true)
            (propagate_aliases scanned)) as Hall.
  { apply propagate_aliases_plain.
    eapply find_container_uids_loop_plain; [|apply map_Forall_empty|exact Hrun].
    unfold entries. by rewrite sorted_listing_perm. }
  split; [done|]. split; [done|]. split.
  - intros name uid Hname.
    assert (isdigit uid = true) as Hdigit.
    { apply Hall in Hname. unfold plain_scan_entry in Hname.
      by apply andb_true_iff in Hname as [_ Hdigit]. }
    split; [done|].
    destruct (int_of_str_isdigit _ Hdigit) as (d & Hd & Hint).
    exists d. split; [done|]. rewrite lookup_fmap, Hname. cbn.
    by rewrite Hint.
  - apply map_Forall_plain_scan in Hall.
    destruct (load_scanned_text _ Hall) as (Hread & Hblank & Hloop).
    unfold Resolver.load_container_map, write_yaml.
    rewrite lookup_insert_eq. cbn zeta. rewrite Hread, Hblank.
    unfold Resolver.load_yaml_simple. by rewrite lookup_insert_eq.
Qed.

(** The sample tree: four folders, one of them without a build definition,
    and a file; [shlex.split] raising on every line. *)
Lemma scanner_run_is_loaded_witness :
  exists scanned,
    find_container_uids (fun _ => None) Samples.scan_fs "/r" Samples.scan_listing
    = Ok scanned
    /\ main (fun _ => None) Samples.scan_fs "/r" (Some Samples.scan_listing)
         "/w/container_uids.yml"
       = (write_yaml (propagate_aliases scanned) "/w/container_uids.yml"
            Samples.scan_fs,
          Ok ("Wrote "
                +:+ str_of_int (Z.of_nat (size (propagate_aliases scanned)))
                +:+ " containers to " +:+ "/w/container_uids.yml"))
    /\ Resolver.load_container_map None
         (write_yaml (propagate_aliases scanned) "/w/container_uids.yml"
            Samples.scan_fs) "/w/container_uids.yml"
       = Ok (uid_number <$> propagate_aliases scanned).
Proof.
  destruct (scanner_run_is_loaded (fun _ => None) Samples.scan_fs "/r"
              Samples.scan_listing "/w/container_uids.yml")
    as (scanned & Hscan & Hmain & _ & Hload).
  - repeat constructor.
  - exists scanned. exact (conj Hscan (conj Hmain Hload)).
Defined.

End scanner_run.

(** ** Subuid Resolver: a host UID below zero *)

Section negative_uids.
Import Py Resolver.

Lemma str_of_int_negative (n : Z) :
  n < 0 -> exists d, str_of_int n = String "-" (NilEmpty.string_of_uint d).
Proof. intros Hn. destruct n as [|p|p]; [lia..|]. by exists (Pos.to_uint p). Qed.

Lemma rendered_any_int (n : Z) : rendered_value (str_of_int n).
Proof.
  destruct (Z.lt_ge_cases n 0) as [Hn|Hn]; [|by apply rendered_int].
  destruct (str_of_int_negative n Hn) as [d ->].
  pose proof (string_of_uint_digits d) as Hall.
  repeat split.
  - cbn [all_chars]. apply andb_true_iff. split; [done|].
    revert Hall. apply all_chars_impl. intros c Hc.
    by rewrite is_digit_not_space.
  - cbn [all_chars]. apply andb_true_iff. split; [done|].
    revert Hall. apply all_chars_impl. intros c Hc.
    by rewrite is_digit_not_quote.
  - cbn [has_char]. by rewrite (all_chars_has_char is_digit).
  - cbn [has_char]. by rewrite (all_chars_has_char is_digit).
Qed.

Lemma str_of_int_negative_guards (n : Z) :
  n < 0 ->
  String.eqb (str_of_int n) "null" || String.eqb (str_of_int n) "~" = false
  /\ isdigit (str_of_int n) = false.
Proof. by intros [d ->]%str_of_int_negative. Qed.

Lemma render_entry_no_break_name item :
  plain_name item.1 = true ->
  has_char LF (render_entry item) = false /\ has_char CR (render_entry item) = false.
Proof.
  destruct item as [name uid]. unfold render_entry. cbn [fst snd].
  intros (_ & Hlf & Hcr & _)%plain_name_facts.
  assert (rendered_value
            match uid with None => "null" | Some uid => str_of_int uid end)
    as (_ & _ & _ & Hvlf & Hvcr).
  { destruct uid as [uid|]; [apply rendered_any_int|apply rendered_null]. }
  by rewrite !has_char_app, Hlf, Hcr, Hvlf, Hvcr.
Qed.

Lemma rendered_lines_no_cr_name (entries : list (string * option Z)) :
  Forall (fun item => plain_name item.1 = true) entries ->
  has_char CR (foldr (fun l acc => l +:+ NL +:+ acc) "" (render_entry <$> entries))
  = false.
Proof.
  induction 1 as [|entry entries Hentry _ IH]; [done|].
  cbn [fmap list_fmap foldr]. rewrite !has_char_app.
  destruct (render_entry_no_break_name _ Hentry) as [_ ->].
  fold (@fmap list _ _ _ render_entry entries). by rewrite IH.
Qed.

(** The line parser stops at the first written entry whose UID is below
    zero. *)
Lemma load_yaml_simple_loop_negative (mapping : uid_map) items :
  Forall (fun item => plain_name item.1 = true) items ->
  Exists (fun item => exists uid, item.2 = Some uid /\ uid < 0) items ->
  exists name uid,
    (name, Some uid) ∈ items /\ uid < 0
    /\ load_yaml_simple_loop mapping
         ((fun l => l +:+ NL) <$> (render_entry <$> items))
       = Err (ValueError
                ("Unsupported value '" +:+ str_of_int uid +:+ "' for container '"
                   +:+ name +:+ "'")).
Proof.
  intros Hnames. revert mapping.
  induction Hnames as [|[name uid] items Hname _ IH]; intros mapping Hneg.
  - by apply Exists_nil in Hneg.
  - cbn [fst] in Hname. cbn [fmap list_fmap].
    fold (@fmap list _ _ _ render_entry items).
    fold (@fmap list _ _ _ (fun l => l +:+ NL) (render_entry <$> items)).
    assert ((exists u, uid = Some u /\ u < 0)
            \/ plain_entry (name, uid) = true) as [(u & -> & Hu)|Hplain].
    { unfold plain_entry. cbn [fst snd]. rewrite Hname. cbn [andb].
      destruct uid as [u|]; [|by right].
      destruct (Z.lt_ge_cases u 0); [left; by exists u|right; by apply Z.leb_le]. }
    + exists name, u. split; [by left|]. split; [done|].
      unfold render_entry. cbn [fst snd]. rewrite !app_assoc.
      rewrite load_yaml_simple_loop_entry by auto using rendered_any_int.
      by destruct (str_of_int_negative_guards u Hu) as [-> ->].
    + rewrite load_yaml_simple_loop_rendered by done.
      apply Exists_cons in Hneg as [(u & Hu & Hlt)|Hneg].
      * cbn [snd] in Hu. subst uid. unfold plain_entry in Hplain.
        cbn [fst snd] in Hplain.
        apply andb_true_iff in Hplain as [_ Hge%Z.leb_le]. lia.
      * destruct (IH (<[name := uid]> mapping) Hneg)
          as (name' & uid' & Hin & Hlt & Hrun).
        exists name', uid'. split; [by right|done].
Qed.

Lemma load_fallback_negative (fs : files) path (mapping : uid_map) name uid :
  map_Forall (fun name _ => plain_name name = true) mapping ->
  mapping !! name = Some (Some uid) -> uid < 0 ->
  fs !! path = Some (yaml_text mapping) ->
  exists name' uid',
    mapping !! name' = Some (Some uid') /\ uid' < 0
    /\ load_container_map None fs path
       = Err (ValueError
                ("Unsupported value '" +:+ str_of_int uid' +:+ "' for container '"
                   +:+ name' +:+ "'")).
Proof.
  intros Hnames Hin Hlt Hfile.
  assert (Forall (fun item => plain_name item.1 = true) (sorted_items mapping))
    as Hsorted.
  { rewrite sorted_items_perm. apply Forall_forall.
    intros [n u] Hi%elem_of_map_to_list. by eapply Hnames. }
  assert (Exists (fun item => exists uid, item.2 = Some uid /\ uid < 0)
            (sorted_items mapping)) as Hex.
  { apply Exists_exists. exists (name, Some uid). split; [|by exists uid].
    rewrite sorted_items_perm. by apply elem_of_map_to_list. }
  destruct (load_yaml_simple_loop_negative ∅ _ Hsorted Hex)
    as (name' & uid' & Hin' & Hlt' & Hrun).
  exists name', uid'. split; [|split; [done|]].
  { apply elem_of_map_to_list. by rewrite <- sorted_items_perm. }
  destruct (sorted_items mapping) as [|item items] eqn:Hitems;
    [by apply Exists_nil in Hex|].
  unfold load_container_map. rewrite Hfile. cbn zeta.
  rewrite read_text_no_cr
    by (rewrite (yaml_text_lines _ _ _ Hitems); by apply rendered_lines_no_cr_name).
  rewrite yaml_text_not_blank. unfold load_yaml_simple. rewrite Hfile.
  rewrite (yaml_text_lines _ _ _ Hitems), readlines_lines; [done|].
  apply Forall_fmap. eapply Forall_impl; [exact Hsorted|].
  intros entry. apply render_entry_no_break_name.
Qed.

(** X11.  The bound on the subuid base in the hand-over from the Resolver is
    needed.  When the Resolver's [main], without a YAML engine, has loaded
    its input and the base found is so low that the host UID of some entry
    comes out below zero ([base + uid < 1], or [< 0] for the privileged
    caller), [main] still ends normally and writes its file; but that file
    is refused when read back: the Resolver's loader raises [ValueError] for
    an entry whose host UID is below zero, and the Applicator's loader fails
    as well. *)
Theorem negative_host_uid_is_not_read_back getuid username (fs : files)
    map_path subuid_file output_path (container_map : uid_map) subuid_base
    name uid :
  load_container_map None fs map_path = Ok container_map ->
  get_current_user_subuid username fs subuid_file = Ok subuid_base ->
  container_map !! name = Some (Some uid) ->
  subuid_base + uid < (if getuid =? 0 then 0 else 1) ->
  (exists line,
     (main None getuid username fs map_path subuid_file output_path).2 = Ok line)
  /\ (exists name' uid',
        compute_host_uids getuid container_map subuid_base !! name'
        = Some (Some uid')
        /\ uid' < 0
        /\ load_container_map None
             (main None getuid username fs map_path subuid_file output_path).1
             output_path
           = Err (ValueError
                    ("Unsupported value '" +:+ str_of_int uid'
                       +:+ "' for container '" +:+ name' +:+ "'")))
  /\ (exists e,
        Applicator.load_host_map None
          (main None getuid username fs map_path subuid_file output_path).1
          output_path
        = Err e).
Proof.
  intros Hload Hbase Hname Hlow. unfold main. rewrite Hload, Hbase.
  cbn [fst snd].
  set (host_map := compute_host_uids getuid container_map subuid_base).
  assert (exists name' uid',
            host_map !! name' = Some (Some uid') /\ uid' < 0
            /\ load_container_map None (write_yaml host_map output_path fs)
                 output_path
               = Err (ValueError
                        ("Unsupported value '" +:+ str_of_int uid'
                           +:+ "' for container '" +:+ name' +:+ "'")))
    as (name' & uid' & Hin & Hlt & Hback).
  { apply (load_fallback_negative _ _ _ name
             (if getuid =? 0 then subuid_base + uid else subuid_base + uid - 1)).
    - unfold host_map. rewrite compute_host_uids_fmap. apply map_Forall_fmap.
      eapply map_Forall_impl;
        [exact (plain_mapping_map_Forall _ (load_container_map_plain _ _ _ Hload))|].
      intros n u. unfold plain_entry. cbn [fst snd compose].
      by intros [-> _]%andb_true_iff.
    - unfold host_map. rewrite compute_host_uids_fmap, lookup_fmap, Hname.
      cbn. by destruct (getuid =? 0).
    - destruct (getuid =? 0); lia.
    - apply lookup_insert_eq. }
  split; [by eexists|]. split; [by exists name', uid'|].
  pose proof (load_host_map_agrees None (write_yaml host_map output_path fs)
                output_path) as Hagree.
  by rewrite Hback in Hagree.
Qed.

(** An unprivileged run, a registry record with base 0 and an entry for the
    container's UID 0: the host UID written is [-1]. *)
Lemma negative_host_uid_is_not_read_back_witness :
  exists e,
    Applicator.load_host_map None
      (main None 1000 "alice"
         (<[ "/w/container_uids.yml" := "proxy: 0" +:+ NL ]>
            {[ "/etc/subuid" := "alice:0:65536" +:+ NL ]})
         "/w/container_uids.yml" "/etc/subuid" "/w/container_host_uids.yml").1
      "/w/container_host_uids.yml"
    = Err e.
Proof.
  refine (proj2 (proj2 (negative_host_uid_is_not_read_back 1000 "alice"
           (<[ "/w/container_uids.yml" := "proxy: 0" +:+ NL ]>
              {[ "/etc/subuid" := "alice:0:65536" +:+ NL ]})
           "/w/container_uids.yml" "/etc/subuid" "/w/container_host_uids.yml"
           {[ "proxy" := Some 0 ]} 0 "proxy" 0 _ _ _ _))).
  - vm_compute. reflexivity.
  - vm_compute. reflexivity.
  - vm_compute. reflexivity.
  - vm_compute. reflexivity.
Defined.

End negative_uids.

(** ** Definition Scanner: the logical lines of a whole file *)

Section logical_lines_of_a_file.
Import Py Scanner.

Lemma rstrip_by_split p (s : string) :
  exists w, s = rstrip_by p s +:+ w /\ all_chars p w = true.
Proof.
  induction s as [|a s (w & Hs & Hw)]; [by exists ""|]. cbn [rstrip_by].
  destruct (is_empty (rstrip_by p s)) eqn:Hempty; cbn [andb].
  - apply is_empty_true in Hempty. rewrite Hempty, app_nil_l in Hs. subst w.
    destruct (p a) eqn:Ha.
    + exists (String a s). split; [done|]. cbn [all_chars]. by rewrite Ha, Hw.
    + exists s. by rewrite app_cons, Hempty, app_nil_l.
  - exists w. by rewrite app_cons, <- Hs.
Qed.

Lemma strip_rstrip_newline (s : string) :
  strip (rstrip_by (Ascii.eqb LF) s) = strip s.
Proof.
  destruct (rstrip_by_split (Ascii.eqb LF) s) as (w & Hs & Hw).
  remember (rstrip_by (Ascii.eqb LF) s) as r eqn:Hr. rewrite Hs.
  symmetry. apply strip_by_app_spaces. revert Hw. apply all_chars_impl.
  by intros c <-%Ascii.eqb_eq.
Qed.

Lemma read_effective_loop_plain lines :
  Forall (fun raw_line =>
            endswith (rstrip_by (Ascii.eqb LF) raw_line) (String BACKSLASH "")
            = false) lines ->
  read_effective_loop "" lines
  = List.filter (fun line => negb (is_empty line) && negb (startswith line "#"))
      (strip <$> lines).
Proof.
  induction 1 as [|raw_line lines Hraw _ IH]; [done|].
  cbn [read_effective_loop fmap list_fmap List.filter].
  fold (@fmap list _ _ _ strip lines).
  rewrite strip_rstrip_newline, Hraw.
  destruct (is_empty (strip raw_line)) eqn:Hblank; cbn [negb andb is_empty];
    [done|].
  destruct (startswith (strip raw_line) "#"); cbn [negb]; [done|].
  rewrite app_nil_l.
  assert (is_empty (rstrip_by (Ascii.eqb LF) raw_line) = false) as ->.
  { apply (strip_by_nonempty is_space).
    pose proof (strip_rstrip_newline raw_line) as Hstrip. unfold strip in Hstrip.
    by rewrite Hstrip. }
  cbn [negb]. by rewrite strip_rstrip_newline, IH.
Qed.

Lemma strip_idemp (s : string) : strip (strip s) = strip s.
Proof.
  unfold strip. destruct (strip_by_fixed is_space s) as [Hl Hr].
  unfold strip_by at 1. by rewrite Hl, Hr.
Qed.

Lemma has_char_drop_last c (s : string) :
  has_char c s = false -> has_char c (drop_last s) = false.
Proof.
  induction s as [|a s IH]; [done|]. cbn [has_char drop_last].
  intros [Ha Hs]%orb_false_iff. destruct (is_empty s); [done|].
  cbn [has_char]. by rewrite Ha, IH.
Qed.

Lemma rstrip_newline_no_break (raw_line body : string) :
  has_char LF body = false -> has_char CR body = false ->
  raw_line = body \/ raw_line = body +:+ NL ->
  has_char LF (rstrip_by (Ascii.eqb LF) raw_line) = false
  /\ has_char CR (rstrip_by (Ascii.eqb LF) raw_line) = false.
Proof.
  intros Hlf Hcr Hraw.
  assert (rstrip_by (Ascii.eqb LF) raw_line = rstrip_by (Ascii.eqb LF) body) as ->.
  { destruct Hraw as [->| ->]; [done|]. by apply rstrip_by_app_spaces. }
  split.
  - destruct (has_char LF (rstrip_by _ body)) eqn:Hc; [|done].
    apply has_char_rstrip_by in Hc. congruence.
  - destruct (has_char CR (rstrip_by _ body)) eqn:Hc; [|done].
    apply has_char_rstrip_by in Hc. congruence.
Qed.

Lemma read_effective_loop_clean pending lines :
  has_char LF pending = false -> has_char CR pending = false ->
  Forall (fun l =>
            exists body,
              has_char LF body = false /\ has_char CR body = false
              /\ (l = body \/ l = body +:+ NL)) lines ->
  Forall (fun line =>
            strip line = line
            /\ has_char LF line = false /\ has_char CR line = false)
    (read_effective_loop pending lines).
Proof.
  intros Hlf Hcr Hlines. revert pending Hlf Hcr.
  assert (forall pending,
            has_char LF pending = false -> has_char CR pending = false ->
            strip (strip pending) = strip pending
            /\ has_char LF (strip pending) = false
            /\ has_char CR (strip pending) = false) as Hyield.
  { intros pending Hlf Hcr.
    split; [apply strip_idemp|]. split; by apply has_char_strip. }
  induction Hlines as [|raw_line lines (body & Hblf & Hbcr & Hraw) _ IH];
    intros pending Hlf Hcr.
  - cbn [read_effective_loop]. destruct (is_empty pending); cbn [negb]; [done|].
    constructor; [by apply Hyield|done].
  - destruct (rstrip_newline_no_break _ _ Hblf Hbcr Hraw) as [Hslf Hscr].
    cbn [read_effective_loop].
    destruct (is_empty (strip (rstrip_by (Ascii.eqb LF) raw_line))).
    { destruct (is_empty pending); cbn [negb]; [by apply IH|].
      constructor; [by apply Hyield|by apply IH]. }
    destruct (startswith _ "#"); [by apply IH|].
    destruct (endswith _ _).
    { apply IH.
      - rewrite !has_char_app, Hlf. by rewrite has_char_drop_last.
      - rewrite !has_char_app, Hcr. by rewrite has_char_drop_last. }
    cbn zeta.
    assert (has_char LF (pending +:+ rstrip_by (Ascii.eqb LF) raw_line) = false)
      as Hplf by (by rewrite has_char_app, Hlf, Hslf).
    assert (has_char CR (pending +:+ rstrip_by (Ascii.eqb LF) raw_line) = false)
      as Hpcr by (by rewrite has_char_app, Hcr, Hscr).
    destruct (is_empty (pending +:+ _)); cbn [negb]; [by apply IH|].
    constructor; [by apply Hyield|by apply IH].
Qed.

(** X12.  In a build definition without continuation lines (no line, its
    line feed apart, ends in a backslash) the logical lines are the physical
    lines, each stripped, without the blank ones and the comments, in the
    order of the file. *)
Theorem read_effective_lines_without_continuations (fs : files) path content :
  fs !! path = Some content ->
  Forall (fun raw_line =>
            endswith (rstrip_by (Ascii.eqb LF) raw_line) (String BACKSLASH "")
            = false) (readlines content) ->
  read_effective_lines fs path
  = Ok (List.filter
          (fun line => negb (is_empty line) && negb (startswith line "#"))
          (strip <$> readlines content)).
Proof.
  intros Hfile Hplain. unfold read_effective_lines. rewrite Hfile.
  by rewrite read_effective_loop_plain.
Qed.

(** A build definition with a comment, an indented instruction and a blank
    line. *)
Lemma read_effective_lines_without_continuations_witness :
  read_effective_lines
    {[ "/r/app/Dockerfile" :=
         "# base" +:+ NL +:+ "  FROM alpine" +:+ NL +:+ NL
           +:+ "RUN adduser -u 2000 app" +:+ NL ]}
    "/r/app/Dockerfile"
  = Ok ["FROM alpine"; "RUN adduser -u 2000 app"].
Proof.
  rewrite (read_effective_lines_without_continuations _ "/r/app/Dockerfile"
             ("# base" +:+ NL +:+ "  FROM alpine" +:+ NL +:+ NL
                +:+ "RUN adduser -u 2000 app" +:+ NL)).
  - vm_compute. reflexivity.
  - vm_compute. reflexivity.
  - vm_compute. repeat constructor.
Defined.

(** X13.  Reading the logical lines of a file fails only when the file does
    not exist, with [FileNotFoundError]; and every logical line it yields,
    whatever the continuations, blank lines and comments of the file, has no
    white space at either end and contains no line break. *)
Theorem read_effective_lines_yields_clean_lines (fs : files) path :
  match read_effective_lines fs path with
  | Ok lines =>
      is_Some (fs !! path)
      /\ Forall (fun line =>
                   strip line = line
                   /\ has_char LF line = false /\ has_char CR line = false)
           lines
  | Err e => fs !! path = None /\ e = FileNotFoundError path
  end.
Proof.
  unfold read_effective_lines. destruct (fs !! path) as [content|]; [|done].
  split; [done|]. apply read_effective_loop_clean; [done..|].
  apply readlines_shape.
Qed.

End logical_lines_of_a_file.

(** ** The three programs in a row *)

Section pipeline.
Import Py.




End pipeline.
